(** * Mancato-Introito-SP: the synchronisation slice

    A shallow embedding of the code that keeps the interview records of the
    application consistent between the React state of [App], the IndexedDB
    object store of [db.ts] and the shared bin of the key-value service, and
    of the handlers of the pages: the form of [InterviewPage.tsx], the
    welcome page, the filter and the sums of [SummaryPage.tsx].

    Asynchronous functions are embedded as computations over an explicit
    world (component state, [localStorage], the object store, the HTTP
    traffic) that either return or throw; what the host decides (the outcome
    of a [fetch], of a storage request, the answer to [window.confirm]) is
    read from an environment.  One operation runs at a time: the
    interleaving of two operations at their [await]s is not modelled. *)

From Stdlib Require Import ZArith Ascii String List Bool Lia.
From Stdlib Require Import Sorting.Sorted Sorting.Permutation.
From Stdlib Require Import Floats.SpecFloat.
From stdpp Require Import base option list gmap strings fin_maps pretty sorting.

Local Open Scope string_scope.
Local Open Scope Z_scope.

(** ** The host: JavaScript values the code relies on *)

Module JS.

(** A JavaScript [number] is an IEEE 754 binary64 value. *)
Definition number : Type := spec_float.

Definition prec : Z := 53.
Definition emax : Z := 1024.

Definition mul : number -> number -> number := SFmul prec emax.
Definition div : number -> number -> number := SFdiv prec emax.
Definition add : number -> number -> number := SFadd prec emax.
Definition ltb : number -> number -> bool := SFltb.
Definition leb : number -> number -> bool := SFleb.

Definition isNaN (x : number) : bool :=
  match x with S754_nan => true | _ => false end.

(** The number denoted by an integer literal of the source. *)
Definition of_Z (z : Z) : number := binary_normalize prec emax z 0 false.

(** [if (s)] on a string: the empty string is falsy. *)
Definition truthy (s : string) : bool :=
  match s with EmptyString => false | String _ _ => true end.

(** [if (v)] on a [string | null]. *)
Definition truthy_opt (v : option string) : bool :=
  match v with Some s => truthy s | None => false end.

(** [s.startsWith(p)] *)
Definition startsWith (s p : string) : bool := String.prefix p s.

(** [Array.prototype.sort(compareFn)].  The comparator returns a number;
    [None] stands for [NaN], which the sort reads as [+0].  ECMAScript
    requires the sort to be stable, so for a consistent comparator the
    result is the one that the stable insertion sort below computes (for
    the comparator by date this is [sortInterviews_unique]); for an
    inconsistent one the order is left to the engine. *)
Section Sort.
Context {A : Type} (compareFn : A -> A -> option Z).

Definition sortCompare (x y : A) : Z :=
  match compareFn x y with Some v => v | None => 0 end.

Fixpoint sort_insert (x : A) (l : list A) : list A :=
  match l with
  | [] => [x]
  | y :: l' =>
      if 0 <? sortCompare x y then y :: sort_insert x l' else x :: l
  end.

Fixpoint Array_sort (l : list A) : list A :=
  match l with
  | [] => []
  | x :: l' => sort_insert x (Array_sort l')
  end.
End Sort.

End JS.

(** ** types.ts *)

(** The enumerations are closed; at run time their members are the strings
    given beside them. *)

Inductive Location :=
| DARMIPARK      (* 'Darmipark' *)
| PALAPARK.      (* 'Palapark' *)

Module TravelMode.
Inductive t :=
| NONE           (* 'NONE' *)
| CAR            (* 'AUTO' *)
| TPL            (* 'TPL' *)
| ALTRO.         (* 'ALTRO' *)
End TravelMode.

Module PaymentType.
Inductive t :=
| NONE           (* 'NONE' *)
| TICKET         (* 'TICKET' *)
| SUBSCRIPTION.  (* 'ABBONAMENTO' *)
End PaymentType.

Module CostFrequency.
Inductive t :=
| DAILY          (* 'GIORNALIERO' *)
| WEEKLY         (* 'SETTIMANALE' *)
| MONTHLY.       (* 'MENSILE' *)
End CostFrequency.

Record InterviewData := {
  id : string;
  location : Location;
  previousTravelMode : TravelMode.t;
  previousPaymentType : PaymentType.t;
  previousWeeklyCost : JS.number;
  usesParkAndRide : bool;
  interviewDateTime : string
}.

(** ** Sorting the records (App) *)

Section Sorting.

(** [new Date(s).getTime()]: the time value of a date string in
    milliseconds, [None] when the string is not a date (the time value is
    then [NaN]).  How strings are parsed is the engine's business. *)
Variable getTime : string -> option Z.

(** [(a, b) => new Date(b.interviewDateTime).getTime()
               - new Date(a.interviewDateTime).getTime()].
    Time values are integers of magnitude at most 8.64e15, so the sign of
    the binary64 difference is the sign of the exact difference. *)
Definition byDateDesc (a b : InterviewData) : option Z :=
  match getTime (interviewDateTime b), getTime (interviewDateTime a) with
  | Some tb, Some ta => Some (tb - ta)
  | _, _ => None
  end.

(** [const sortInterviews = (data) => data.sort(...)] *)
Definition sortInterviews (data : list InterviewData) : list InterviewData :=
  JS.Array_sort byDateDesc data.

(** Every record of the list carries a date that parses. *)
Definition datesValid (data : list InterviewData) : Prop :=
  Forall (fun r => is_Some (getTime (interviewDateTime r))) data.

(** [a] may stand before [b] in a list ordered by date, newest first. *)
Definition newerOrEqual (a b : InterviewData) : Prop :=
  match getTime (interviewDateTime a), getTime (interviewDateTime b) with
  | Some ta, Some tb => tb <= ta
  | _, _ => False
  end.

(** The records of [data] dated [t], in the order they have in [data]. *)
Definition dated (t : Z) (data : list InterviewData) : list InterviewData :=
  filter (fun r => getTime (interviewDateTime r) = Some t) data.

End Sorting.

(** ** What an asynchronous function can throw *)

Inductive exn :=
| Error (message : string)
    (** an instance of [Error]: [new Error(message)] of the code, or the
        [TypeError] of a failed [fetch], the [SyntaxError] of [json()] *)
| Reason (text : string).
    (** a promise rejected with a plain string, as [db.ts] does *)

(** [error instanceof Error ? f(error.message) : otherwise] *)
Definition whenError (error : exn) (f : string -> string) (otherwise : string) : string :=
  match error with
  | Error message => f message
  | Reason _ => otherwise
  end.

(** ** HTTP as the code uses it *)

Inductive method := GET | POST | PATCH.

(** The request bodies the code writes. *)
Inductive payload :=
| NoBody
| JsonArray (records : list InterviewData)
    (** [JSON.stringify(records)]; the literal ['[]'] is [JsonArray []] *)
| JsonPatchAdd (value : InterviewData).
    (** [JSON.stringify([{ op: 'add', path: '/-', value }])] *)

Record request := {
  req_method : method;
  req_url : string;
  req_contentType : option string;
  req_body : payload
}.

(** What [response.json()] resolves to.  The elements of an array are read
    as records, unchecked, as the code does.  An array with an element that
    is no record (no usable [id]) has no counterpart here: on it the bulk
    load of [db.ts] throws inside a handler of the transaction and its
    promise never settles, which is neither of the outcomes of the model. *)
Inductive json :=
| JNull
| JBool (b : bool)
| JNumber (n : Z)
| JString (s : string)
| JObject                      (** an object; its members are never read *)
| JArray (records : list InterviewData).

Inductive json_result :=
| SyntaxError (message : string)
| Parsed (data : json).

Record response := {
  status : Z;
  header_ETag : option string;      (** [response.headers.get('ETag')] *)
  body_text : string;               (** [response.text()] *)
  body_json : json_result           (** [response.json()] *)
}.

(** [response.ok] *)
Definition ok (r : response) : bool := (200 <=? status r) && (status r <=? 299).

Inductive fetched :=
| NetworkFailure (message : string)   (** [fetch] rejects with a [TypeError] *)
| Answer (r : response).

(** ** The environment of one operation *)

Record Env := {
  net : request -> fetched;          (** how a [fetch] of the request settles *)
  confirm : bool;                    (** the user's answer to [window.confirm] *)
  idb_open : bool;                   (** [indexedDB.open] succeeds *)
  idb_clear : bool;                  (** a [clear] request succeeds *)
  idb_add : InterviewData -> bool    (** the engine stores a record whose key is free *)
}.

(** ** The world the operations act on *)

Module SyncStatus.
Inductive t := idle | connecting | syncing | connected | error.
End SyncStatus.

Module SessionMode.
Inductive t := welcome | local | online.
End SessionMode.

Record World := {
  (** the state of the [App] component *)
  sessionMode : SessionMode.t;
  interviews : list InterviewData;
  isLoading : bool;
  syncUrl : option string;
  syncStatus : SyncStatus.t;
  syncError : option string;
  etag : option string;
  (** [window.localStorage] *)
  localStorage : gmap string string;
  (** the object store ['interviews'] of [db.ts], keyed by [id] *)
  store : gmap string InterviewData;
  (** the requests sent so far, with how each settled, oldest first *)
  traffic : list (request * fetched)
}.

Inductive outcome (A : Type) :=
| Returns (a : A)
| Throws (e : exn).
Arguments Returns {A} a.
Arguments Throws {A} e.

(** An [async] function: it reads the environment, changes the world, and
    returns or throws. *)
Definition Async (A : Type) : Type := Env -> World -> outcome A * World.

Global Instance Async_ret : MRet Async :=
  fun A a _ w => (Returns a, w).

Global Instance Async_bind : MBind Async :=
  fun A B f m env w =>
    match m env w with
    | (Returns a, w') => f a env w'
    | (Throws e, w') => (Throws e, w')
    end.

Definition throw {A} (e : exn) : Async A :=
  fun _ w => (Throws e, w).

(** [try { body } catch (error) { handler(error) }] *)
Definition try_catch {A} (body : Async A) (handler : exn -> Async A) : Async A :=
  fun env w =>
    match body env w with
    | (Returns a, w') => (Returns a, w')
    | (Throws e, w') => handler e env w'
    end.

(** [try { body } finally { cleanup }] *)
Definition try_finally {A} (body : Async A) (cleanup : Async unit) : Async A :=
  fun env w =>
    match body env w with
    | (r, w') =>
        match cleanup env w' with
        | (Returns _, w'') => (r, w'')
        | (Throws e, w'') => (Throws e, w'')
        end
    end.

Definition when (b : bool) (m : Async unit) : Async unit :=
  if b then m else mret tt.

Definition gets {A} (f : World -> A) : Async A :=
  fun _ w => (Returns (f w), w).

Definition ask {A} (f : Env -> A) : Async A :=
  fun env w => (Returns (f env), w).

Definition modify (f : World -> World) : Async unit :=
  fun _ w => (Returns tt, f w).

(** *** The setters of the component state *)

Definition setSessionMode (v : SessionMode.t) : Async unit :=
  modify (fun w =>
    {| sessionMode := v; interviews := interviews w; isLoading := isLoading w;
       syncUrl := syncUrl w; syncStatus := syncStatus w; syncError := syncError w;
       etag := etag w; localStorage := localStorage w; store := store w;
       traffic := traffic w |}).

Definition setInterviews (v : list InterviewData) : Async unit :=
  modify (fun w =>
    {| sessionMode := sessionMode w; interviews := v; isLoading := isLoading w;
       syncUrl := syncUrl w; syncStatus := syncStatus w; syncError := syncError w;
       etag := etag w; localStorage := localStorage w; store := store w;
       traffic := traffic w |}).

Definition setIsLoading (v : bool) : Async unit :=
  modify (fun w =>
    {| sessionMode := sessionMode w; interviews := interviews w; isLoading := v;
       syncUrl := syncUrl w; syncStatus := syncStatus w; syncError := syncError w;
       etag := etag w; localStorage := localStorage w; store := store w;
       traffic := traffic w |}).

Definition setSyncUrl (v : option string) : Async unit :=
  modify (fun w =>
    {| sessionMode := sessionMode w; interviews := interviews w; isLoading := isLoading w;
       syncUrl := v; syncStatus := syncStatus w; syncError := syncError w;
       etag := etag w; localStorage := localStorage w; store := store w;
       traffic := traffic w |}).

Definition setSyncStatus (v : SyncStatus.t) : Async unit :=
  modify (fun w =>
    {| sessionMode := sessionMode w; interviews := interviews w; isLoading := isLoading w;
       syncUrl := syncUrl w; syncStatus := v; syncError := syncError w;
       etag := etag w; localStorage := localStorage w; store := store w;
       traffic := traffic w |}).

Definition setSyncError (v : option string) : Async unit :=
  modify (fun w =>
    {| sessionMode := sessionMode w; interviews := interviews w; isLoading := isLoading w;
       syncUrl := syncUrl w; syncStatus := syncStatus w; syncError := v;
       etag := etag w; localStorage := localStorage w; store := store w;
       traffic := traffic w |}).

Definition setEtag (v : option string) : Async unit :=
  modify (fun w =>
    {| sessionMode := sessionMode w; interviews := interviews w; isLoading := isLoading w;
       syncUrl := syncUrl w; syncStatus := syncStatus w; syncError := syncError w;
       etag := v; localStorage := localStorage w; store := store w;
       traffic := traffic w |}).

(** *** The host objects *)

Definition set_localStorage (v : gmap string string) (w : World) : World :=
  {| sessionMode := sessionMode w; interviews := interviews w; isLoading := isLoading w;
     syncUrl := syncUrl w; syncStatus := syncStatus w; syncError := syncError w;
     etag := etag w; localStorage := v; store := store w; traffic := traffic w |}.

Definition set_store (v : gmap string InterviewData) (w : World) : World :=
  {| sessionMode := sessionMode w; interviews := interviews w; isLoading := isLoading w;
     syncUrl := syncUrl w; syncStatus := syncStatus w; syncError := syncError w;
     etag := etag w; localStorage := localStorage w; store := v; traffic := traffic w |}.

Definition set_traffic (v : list (request * fetched)) (w : World) : World :=
  {| sessionMode := sessionMode w; interviews := interviews w; isLoading := isLoading w;
     syncUrl := syncUrl w; syncStatus := syncStatus w; syncError := syncError w;
     etag := etag w; localStorage := localStorage w; store := store w; traffic := v |}.

(** [localStorage.setItem(key, value)] *)
Definition localStorage_setItem (key value : string) : Async unit :=
  modify (fun w => set_localStorage (<[key := value]> (localStorage w)) w).

(** [localStorage.removeItem(key)] *)
Definition localStorage_removeItem (key : string) : Async unit :=
  modify (fun w => set_localStorage (delete key (localStorage w)) w).

(** [window.confirm(...)] *)
Definition window_confirm : Async bool := ask confirm.

(** [await fetch(url, init)]: the request goes out, and the promise settles
    as the environment says. *)
Definition fetch (req : request) : Async response :=
  fun env w =>
    let settled := net env req in
    let w' := set_traffic (traffic w ++ [(req, settled)]) w in
    match settled with
    | Answer r => (Returns r, w')
    | NetworkFailure message => (Throws (Error message), w')
    end.

(** [await response.json()] *)
Definition response_json (r : response) : Async json :=
  match body_json r with
  | Parsed data => mret data
  | SyntaxError message => throw (Error message)
  end.

(** ** db.ts: the object store

    The store is created with [keyPath: 'id'], so it is a map from the [id]
    of a record to the record.  Every function runs one transaction.  A
    request that fails fires an error event that nobody cancels, so the
    transaction is aborted and the store is left as it was before the
    transaction began. *)

(** [const db = await getDb()] *)
Definition getDb : Async unit :=
  fun env w =>
    if idb_open env then (Returns tt, w)
    else (Throws (Reason "Error opening database"), w).

(** One [store.add(interview)] request: it fails with a [ConstraintError]
    when the key is taken, or when the engine refuses the write. *)
Definition store_add (env : Env) (interview : InterviewData)
    (st : gmap string InterviewData) : option (gmap string InterviewData) :=
  match st !! id interview with
  | Some _ => None
  | None => if idb_add env interview then Some (<[id interview := interview]> st) else None
  end.

(** [interviews.forEach(interview => { store.add(interview); })]: the
    requests run in order; [None] as soon as one of them fails. *)
Fixpoint store_add_each (env : Env) (interviews : list InterviewData)
    (st : gmap string InterviewData) : option (gmap string InterviewData) :=
  match interviews with
  | [] => Some st
  | interview :: rest =>
      match store_add env interview st with
      | Some st' => store_add_each env rest st'
      | None => None
      end
  end.

(** [new Promise((resolve, reject) => { const transaction =
    db.transaction([STORE_NAME], mode); ... })]: the requests of [run] are
    applied to the store; [inl] when the promise is resolved and the
    transaction commits, [inr] with the reason when a request fails: the
    promise is rejected and the transaction aborted. *)
Definition transaction {A}
    (run : Env -> gmap string InterviewData -> gmap string InterviewData * A + string)
    : Async A :=
  fun env w =>
    match run env (store w) with
    | inl (st, a) => (Returns a, set_store st w)
    | inr reason => (Throws (Reason reason), w)
    end.

Definition addInterviewDB (interview : InterviewData) : Async unit :=
  getDb ;;
  transaction (fun env st =>
    match store_add env interview st with
    | Some st' => inl (st', tt)                                  (* request.onsuccess *)
    | None => inr "Could not add interview to the database."     (* request.onerror *)
    end).

Definition clearAllInterviewsDB : Async unit :=
  getDb ;;
  transaction (fun env st =>
    if idb_clear env then inl (∅, tt)                            (* request.onsuccess *)
    else inr "Could not clear interviews from the database.").   (* request.onerror *)

Definition replaceInterviewsDB (interviews : list InterviewData) : Async unit :=
  getDb ;;
  transaction (fun env st =>
    if idb_clear env then
      (* clearRequest.onsuccess *)
      let added :=
        match interviews with
        | [] => Some ∅                                           (* length === 0: return *)
        | _ :: _ => store_add_each env interviews ∅
        end in
      match added with
      | Some st' => inl (st', tt)                                (* transaction.oncomplete *)
      | None => inr "Transaction failed while replacing interviews."  (* transaction.onerror *)
      end
    else
      (* clearRequest.onerror: transaction.abort() *)
      inr "Could not clear interviews from the database.").

(** *** Reading the store *)

Section DbRead.

(** Whether the [getAll] request of the call succeeds: the engine decides. *)
Variable idb_getAll : bool.

(** [store.getAll()]: the records in the ascending order of their keys.
    Keys are compared as byte strings, which is the order of the engine on
    the keys the application writes (Basic Latin text). *)
Definition store_getAll (st : gmap string InterviewData) : list InterviewData :=
  snd <$> merge_sort (fun a b => String.le (fst a) (fst b)) (map_to_list st).

Definition getAllInterviewsDB : Async (list InterviewData) :=
  getDb ;;
  transaction (fun env st =>
    if idb_getAll then inl (st, store_getAll st)                     (* request.onsuccess *)
    else inr "Could not fetch interviews from the database.").        (* request.onerror *)

End DbRead.

(** ** App: the session controller *)

Section App.

Variable getTime : string -> option Z.

Definition KVDB_NEW_BIN_URL : string := "https://kvdb.io/new/bin".

(** [sessionMode === 'online' && syncUrl], and the URL when it holds. *)
Definition sharedUrl (w : World) : option string :=
  match sessionMode w, syncUrl w with
  | SessionMode.online, Some url => if JS.truthy url then Some url else None
  | _, _ => None
  end.

(** [const newEtag = response.headers.get('ETag');
     if (newEtag) setEtag(newEtag);] *)
Definition recordEtag (r : response) : Async unit :=
  let newEtag := header_ETag r in
  when (JS.truthy_opt newEtag) (setEtag newEtag).

Definition getBinData (url : string) : Async (list InterviewData) :=
  response ← fetch {| req_method := GET; req_url := url;
                      req_contentType := None; req_body := NoBody |};
  if negb (ok response) then
    throw (Error ("Impossibile recuperare i dati. (HTTP " +:+ pretty (status response) +:+ ")"))
  else
    recordEtag response ;;
    data ← response_json response;
    mret (match data with JArray records => records | _ => [] end).

Definition handleConnectSession (url : string) (shouldConfirm : bool) : Async unit :=
  if negb (JS.startsWith url "https://kvdb.io/") then
    setSyncError (Some "URL non valido. Assicurati che inizi con 'https://kvdb.io/'.") ;;
    throw (Error "URL non valido.")
  else
    setSyncStatus SyncStatus.connecting ;;
    setSyncError None ;;
    setIsLoading true ;;
    try_finally
      (try_catch
         (cloudData ← getBinData url;
          confirmed ← (if negb shouldConfirm then mret true else window_confirm);
          if confirmed : bool then
            let sortedData := sortInterviews getTime cloudData in
            localStorage_setItem "sessionMode" "online" ;;
            localStorage_setItem "syncUrl" url ;;
            setSyncUrl (Some url) ;;
            setInterviews sortedData ;;
            replaceInterviewsDB sortedData ;;
            setSessionMode SessionMode.online ;;
            setSyncStatus SyncStatus.connected
          else
            setSyncStatus SyncStatus.idle)
         (fun error =>
            setSyncStatus SyncStatus.error ;;
            setSyncError (Some (whenError error
              (fun message => "URL non valido o sessione non trovata. " +:+ message)
              "Errore sconosciuto")) ;;
            throw error))
      (setIsLoading false).

Definition addInterview (interview : InterviewData) : Async unit :=
  current ← gets interviews;
  let optimisticNewData := sortInterviews getTime (current ++ [interview]) in
  setInterviews optimisticNewData ;;
  shared ← gets sharedUrl;
  match shared with
  | Some syncUrl =>
      setSyncStatus SyncStatus.syncing ;;
      try_catch
        (response ← fetch {| req_method := PATCH; req_url := syncUrl;
                             req_contentType := Some "application/json-patch+json";
                             req_body := JsonPatchAdd interview |};
         if negb (ok response) then
           throw (Error ("Sincronizzazione fallita. (HTTP " +:+ pretty (status response) +:+ ")"))
         else
           addInterviewDB interview ;;
           recordEtag response ;;
           setSyncStatus SyncStatus.connected)
        (fun error =>
           setSyncStatus SyncStatus.error ;;
           let errorMessage := whenError error (fun message => message) "Errore sconosciuto" in
           (* the text as the file holds it, byte for byte *)
           setSyncError (Some ("Sincronizzazione fallita: " +:+ errorMessage
                                 +:+ ". La modifica Ã¨ salvata solo localmente.")) ;;
           addInterviewDB interview ;;
           throw error)
  | None => addInterviewDB interview
  end.

Definition clearInterviews : Async unit :=
  shared ← gets sharedUrl;
  match shared with
  | Some syncUrl =>
      _ ← fetch {| req_method := POST; req_url := syncUrl;
                   req_contentType := Some "application/json";
                   req_body := JsonArray [] |};
      mret tt
  | None => mret tt
  end ;;
  clearAllInterviewsDB ;;
  setInterviews [].

Definition replaceInterviews (newInterviews : list InterviewData) : Async unit :=
  let sortedData := sortInterviews getTime newInterviews in
  shared ← gets sharedUrl;
  match shared with
  | Some syncUrl =>
      response ← fetch {| req_method := POST; req_url := syncUrl;
                          req_contentType := Some "application/json";
                          req_body := JsonArray sortedData |};
      recordEtag response
  | None => mret tt
  end ;;
  replaceInterviewsDB sortedData ;;
  setInterviews sortedData.

Definition handleCreateSession : Async unit :=
  setSyncStatus SyncStatus.connecting ;;
  setSyncError None ;;
  setIsLoading true ;;
  try_finally
    (try_catch
       (current ← gets interviews;
        response ← fetch {| req_method := POST; req_url := KVDB_NEW_BIN_URL;
                            req_contentType := Some "application/json";
                            req_body := JsonArray current |};
        if negb (ok response) then
          throw (Error ("Creazione sessione fallita (HTTP " +:+ pretty (status response) +:+ ")"))
        else
          let url := body_text response in
          localStorage_setItem "sessionMode" "online" ;;
          localStorage_setItem "syncUrl" url ;;
          setSyncUrl (Some url) ;;
          recordEtag response ;;
          setSessionMode SessionMode.online ;;
          setSyncStatus SyncStatus.connected)
       (fun error =>
          setSyncStatus SyncStatus.error ;;
          setSyncError (Some (whenError error (fun message => message) "Errore sconosciuto")) ;;
          throw error))
    (setIsLoading false).

End App.

(** *** The rest of the controller: manual sync, local session, start-up,
    polling, disconnect *)

Section Sessions.

Variable getTime : string -> option Z.

(** Whether a [getAll] request succeeds (see [getAllInterviewsDB]). *)
Variable idb_getAll : bool.

(** [fetch(syncUrl, { headers: etag ? { 'If-None-Match': etag } : {} })]:
    the conditional GET of the poll, given the URL and the entity tag it
    sends, if any.  The requests of this development carry no such header,
    so the call is left to the host. *)
Variable conditionalGet : string -> option string -> Async response.

Definition handleManualSync : Async unit :=
  current ← gets syncUrl;
  match current with
  | None => mret tt                                   (* if (!syncUrl) return *)
  | Some syncUrl =>
      if negb (JS.truthy syncUrl) then mret tt
      else
        setSyncStatus SyncStatus.syncing ;;
        setSyncError None ;;
        try_catch
          (cloudData ← getBinData syncUrl;
           let sortedData := sortInterviews getTime cloudData in
           setInterviews sortedData ;;
           replaceInterviewsDB sortedData ;;
           setSyncStatus SyncStatus.connected)
          (fun error =>
             let errorMessage := whenError error (fun message => message) "Errore sconosciuto" in
             setSyncStatus SyncStatus.error ;;
             setSyncError (Some ("Sincronizzazione manuale fallita: " +:+ errorMessage)))
  end.

Definition handleStartLocalSession : Async unit :=
  setIsLoading true ;;
  localData ← getAllInterviewsDB idb_getAll;
  setInterviews (sortInterviews getTime localData) ;;
  localStorage_setItem "sessionMode" "local" ;;
  localStorage_removeItem "syncUrl" ;;
  setSessionMode SessionMode.local ;;
  setSyncUrl None ;;
  setIsLoading false.

(** [localStorage.getItem(key)] *)
Definition localStorage_getItem (key : string) : Async (option string) :=
  gets (fun w => localStorage w !! key).

(** The effect that runs once when the application starts. *)
Definition loadInitialData : Async unit :=
  setIsLoading true ;;
  savedSessionMode ← localStorage_getItem "sessionMode";
  savedSyncUrl ← localStorage_getItem "syncUrl";
  match savedSessionMode, savedSyncUrl with
  | Some mode, Some url =>
      if String.eqb mode "online" && JS.truthy url then
        try_catch
          (handleConnectSession getTime url false)
          (fun _ =>
             (* Fallback to local on connection error *)
             handleStartLocalSession ;;
             setSyncError (Some "Impossibile connettersi alla sessione cloud. Caricamento dati locali."))
      else if String.eqb mode "local" then handleStartLocalSession
      else setSessionMode SessionMode.welcome
  | Some mode, None =>
      if String.eqb mode "local" then handleStartLocalSession
      else setSessionMode SessionMode.welcome
  | None, _ => setSessionMode SessionMode.welcome
  end ;;
  setIsLoading false.

(** The guard of the polling effect: no timer unless the session is
    online, connected and has a URL.  [Some] with the URL when it runs. *)
Definition pollingUrl (w : World) : option string :=
  match sessionMode w, syncStatus w with
  | SessionMode.online, SyncStatus.connected =>
      match syncUrl w with
      | Some url => if JS.truthy url then Some url else None
      | None => None
      end
  | _, _ => None
  end.

(** [poll], for the URL and the entity tag of the render that set the
    timer. *)
Definition poll (syncUrl : string) (etag : option string) : Async unit :=
  try_catch
    (response ← conditionalGet syncUrl (if JS.truthy_opt etag then etag else None);
     if status response =? 200 then
       recordEtag response ;;
       cloudData ← response_json response;
       let sortedData :=
         sortInterviews getTime (match cloudData with JArray records => records | _ => [] end) in
       setInterviews sortedData ;;
       replaceInterviewsDB sortedData
     else if negb (status response =? 304) then
       throw (Error ("Server error during poll: " +:+ pretty (status response)))
     else mret tt)
    (fun error =>
       (* console.error('Polling error:', error) *)
       setSyncStatus SyncStatus.error ;;
       setSyncError (Some "Connessione persa. Riprova a sincronizzare manualmente.")).

(** One tick of the timer, when there is a timer. *)
Definition pollTick : Async unit :=
  url ← gets pollingUrl;
  tag ← gets etag;
  match url with
  | Some syncUrl => poll syncUrl tag
  | None => mret tt
  end.

(** [handleDisconnect]; it also closes the dialog it is called from, whose
    flag is no part of the world. *)
Definition handleDisconnect : Async unit :=
  localStorage_removeItem "syncUrl" ;;
  localStorage_removeItem "sessionMode" ;;
  setSyncUrl None ;;
  setSyncStatus SyncStatus.idle ;;
  setSyncError None ;;
  setEtag None ;;
  setInterviews [] ;;
  setSessionMode SessionMode.welcome.

End Sessions.

(** ** The shared bin, as the code can observe it *)



(** ** InterviewPage.tsx: the cost a record stores *)

Section InterviewPage.

(** [parseFloat]: the engine's reading of a decimal text. *)
Variable parseFloat : string -> JS.number.

(** The state of the form. *)
Record Form := {
  form_location : option Location;
  form_previousTravelMode : TravelMode.t;
  form_previousPaymentType : PaymentType.t;
  form_cost : string;
  form_costFrequency : CostFrequency.t;
  form_usesParkAndRide : bool
}.

(** What the host supplies while a record is built: the texts of the two
    [new Date().toISOString()] and of [Math.random()]. *)
Record Host := {
  host_idInstant : string;
  host_random : string;
  host_instant : string
}.

(** The [default] branch of the [switch] returns 0; no member of the
    enumeration reaches it. *)
Definition normalizeCostToWeekly (costValue : JS.number)
    (frequency : CostFrequency.t) : JS.number :=
  match frequency with
  | CostFrequency.DAILY => JS.mul costValue (JS.of_Z 5)
  | CostFrequency.WEEKLY => costValue
  | CostFrequency.MONTHLY => JS.div (JS.mul costValue (JS.of_Z 12)) (JS.of_Z 52)
  end.

(** [cost.replace(',', '.')]: the first comma becomes a dot. *)
Fixpoint replaceComma (s : string) : string :=
  match s with
  | EmptyString => EmptyString
  | String c rest =>
      if Ascii.eqb c ","%char then String "."%char rest
      else String c (replaceComma rest)
  end.

(** [handleSubmit] up to the call of [addInterview]: the message it sets
    with [setError], or the record it hands over. *)
Definition handleSubmit (form : Form) (host : Host) : string + InterviewData :=
  match form_location form with
  | None => inl "Selezionare una località."
  | Some location =>
      match form_previousTravelMode form with
      | TravelMode.NONE => inl "Selezionare una modalità di spostamento precedente."
      | previousTravelMode =>
          let build (weeklyCost : JS.number) (paymentType : PaymentType.t) :=
            {| id := host_idInstant host +:+ host_random host;
               location := location;
               previousTravelMode := previousTravelMode;
               previousPaymentType := paymentType;
               previousWeeklyCost := weeklyCost;
               usesParkAndRide := form_usesParkAndRide form;
               interviewDateTime := host_instant host |} in
          match previousTravelMode with
          | TravelMode.ALTRO => inr (build (JS.of_Z 0) PaymentType.NONE)
          | _ =>
              let costValue := parseFloat (replaceComma (form_cost form)) in
              if JS.isNaN costValue || JS.ltb costValue (JS.of_Z 0) then
                inl "Inserire un costo valido."
              else
                match form_previousPaymentType form with
                | PaymentType.NONE => inl "Selezionare un tipo di pagamento."
                | previousPaymentType =>
                    inr (build (normalizeCostToWeekly costValue (form_costFrequency form))
                               previousPaymentType)
                end
          end
      end
  end.

End InterviewPage.

(** *** The whole of [handleSubmit] *)

Section InterviewPageEvents.

Variable getTime : string -> option Z.
Variable parseFloat : string -> JS.number.

(** The state of the page: the form and what the page shows about the last
    submission. *)
Record PageState := {
  page_form : Form;
  page_error : string;
  page_success : string;
  page_isSaving : bool
}.

(** The form as the page resets it. *)
Definition emptyForm : Form :=
  {| form_location := None;
     form_previousTravelMode := TravelMode.NONE;
     form_previousPaymentType := PaymentType.NONE;
     form_cost := EmptyString;
     form_costFrequency := CostFrequency.WEEKLY;
     form_usesParkAndRide := true |}.

(** [handleSubmit] with its call of [addInterview]: the state of the page
    and the world when the handler is through.  (The success message is
    taken down three seconds later by a timer.) *)
Definition handleSubmitEvent (page : PageState) (host : Host)
    (env : Env) (w : World) : PageState * World :=
  match handleSubmit parseFloat (page_form page) host with
  | inl message =>
      ({| page_form := page_form page; page_error := message;
          page_success := EmptyString; page_isSaving := page_isSaving page |}, w)
  | inr newInterview =>
      match addInterview getTime newInterview env w with
      | (Returns _, w') =>
          ({| page_form := emptyForm; page_error := EmptyString;
              page_success := "Intervista aggiunta con successo!";
              page_isSaving := false |}, w')
      | (Throws error, w') =>
          ({| page_form := page_form page;
              page_error := whenError error (fun message => message)
                              "Salvataggio fallito. Riprova.";
              page_success := EmptyString; page_isSaving := false |}, w')
      end
  end.

End InterviewPageEvents.

(** ** WelcomePage.tsx *)

Section WelcomePage.

Variable getTime : string -> option Z.

Record WelcomeState := {
  joinUrl : string;
  joinError : option string;
  createError : option string
}.

Definition setJoinError (v : option string) (page : WelcomeState) : WelcomeState :=
  {| joinUrl := joinUrl page; joinError := v; createError := createError page |}.

Definition setCreateError (v : option string) (page : WelcomeState) : WelcomeState :=
  {| joinUrl := joinUrl page; joinError := joinError page; createError := v |}.

(** [handleCreate], with [onCreateOnline] bound to [handleCreateSession] *)
Definition handleCreate (page : WelcomeState) (env : Env) (w : World)
    : WelcomeState * World :=
  match handleCreateSession env w with
  | (Returns _, w') => (setCreateError None page, w')
  | (Throws e, w') =>
      (setCreateError (Some (whenError e (fun message => message)
                               "Creazione sessione fallita.")) page, w')
  end.

(** [handleJoin], with [onJoinOnline] bound to [handleConnectSession]; the
    page passes the URL alone, so the confirmation is asked for. *)
Definition handleJoin (page : WelcomeState) (env : Env) (w : World)
    : WelcomeState * World :=
  if negb (JS.truthy (joinUrl page)) then
    (setJoinError (Some "L'URL non può essere vuoto.") page, w)
  else
    match handleConnectSession getTime (joinUrl page) true env w with
    | (Returns _, w') => (setJoinError None page, w')
    | (Throws e, w') =>
        (setJoinError (Some (whenError e (fun message => message)
                               "Impossibile connettersi alla sessione.")) page, w')
    end.

End WelcomePage.

(** ** SummaryPage.tsx: the filter by date and the sums *)

Section SummaryPage.

Variable getTime : string -> option Z.

(** [const start = new Date(startDate); start.setHours(0, 0, 0, 0)] and
    [const end = new Date(endDate); end.setHours(23, 59, 59, 999)]: the time
    values of the first and of the last millisecond of the day, in the time
    zone of the device; [None] when the text is no date. *)
Variable dayStart : string -> option Z.
Variable dayEnd : string -> option Z.

(** [a < b] on two dates: false as soon as one of them is invalid. *)
Definition dateBefore (a b : option Z) : bool :=
  match a, b with
  | Some ta, Some tb => ta <? tb
  | _, _ => false
  end.

Definition filteredInterviews (interviews : list InterviewData)
    (startDate endDate : string) : list InterviewData :=
  List.filter (fun interview =>
    if negb (JS.truthy startDate) && negb (JS.truthy endDate) then true
    else
      let interviewDate := getTime (interviewDateTime interview) in
      if JS.truthy startDate && dateBefore interviewDate (dayStart startDate) then false
      else if JS.truthy endDate && dateBefore (dayEnd endDate) interviewDate then false
      else true) interviews.

Record Metrics := {
  totalParkingLoss : JS.number;
  totalTplLoss : JS.number;
  totalWeeklyLoss : JS.number;
  totalInterviews : nat
}.

(** [i.previousTravelMode === mode && i.usesParkAndRide] *)
Definition lostTo (mode : TravelMode.t) (i : InterviewData) : bool :=
  match previousTravelMode i, mode with
  | TravelMode.NONE, TravelMode.NONE
  | TravelMode.CAR, TravelMode.CAR
  | TravelMode.TPL, TravelMode.TPL
  | TravelMode.ALTRO, TravelMode.ALTRO => usesParkAndRide i
  | _, _ => false
  end.

(** [.reduce((sum, i) => sum + i.previousWeeklyCost, 0)] *)
Definition sumCosts (records : list InterviewData) : JS.number :=
  fold_left (fun sum i => JS.add sum (previousWeeklyCost i)) records (JS.of_Z 0).

Definition calculateMetrics (currentInterviews : list InterviewData) : Metrics :=
  let parking := sumCosts (List.filter (lostTo TravelMode.CAR) currentInterviews) in
  let tpl := sumCosts (List.filter (lostTo TravelMode.TPL) currentInterviews) in
  {| totalParkingLoss := parking;
     totalTplLoss := tpl;
     totalWeeklyLoss := JS.add parking tpl;
     totalInterviews := length currentInterviews |}.

Definition atLocation (place : Location) (i : InterviewData) : bool :=
  match location i, place with
  | DARMIPARK, DARMIPARK | PALAPARK, PALAPARK => true
  | _, _ => false
  end.

Record Summary := {
  summary_Darmipark : Metrics;
  summary_Palapark : Metrics;
  summary_combined : Metrics
}.

Definition summary (filtered : list InterviewData) : Summary :=
  {| summary_Darmipark := calculateMetrics (List.filter (atLocation DARMIPARK) filtered);
     summary_Palapark := calculateMetrics (List.filter (atLocation PALAPARK) filtered);
     summary_combined := calculateMetrics filtered |}.

End SummaryPage.

(** ** The requests the operations send *)

(** [fetch(url)] *)
Definition fetchAllRequest (url : string) : request :=
  {| req_method := GET; req_url := url; req_contentType := None; req_body := NoBody |}.

(** [fetch(syncUrl, { method: 'PATCH', ... })] of [addInterview] *)
Definition appendRequest (url : string) (interview : InterviewData) : request :=
  {| req_method := PATCH; req_url := url;
     req_contentType := Some "application/json-patch+json";
     req_body := JsonPatchAdd interview |}.

(** [fetch(syncUrl, { method: 'POST', body, ... })] of [clearInterviews]
    and [replaceInterviews] *)
Definition overwriteRequest (url : string) (records : list InterviewData) : request :=
  {| req_method := POST; req_url := url;
     req_contentType := Some "application/json";
     req_body := JsonArray records |}.

(** A request failed for the caller: no answer, or one whose status is not
    a success. *)
Definition failed (settled : fetched) : Prop :=
  match settled with
  | NetworkFailure _ => True
  | Answer r => ok r = false
  end.

(** The service answered, with whatever status. *)
Definition answered (settled : fetched) : Prop :=
  match settled with
  | NetworkFailure _ => False
  | Answer _ => True
  end.


(** Every [add] of a bulk load succeeds: no [id] occurs twice in the list
    and the engine refuses none of the records. *)
Definition insertsSucceed (env : Env) (records : list InterviewData) : Prop :=
  NoDup (id <$> records) /\ Forall (fun r => idb_add env r = true) records.

(** The store that holds exactly the given records. *)
Definition storeOf (records : list InterviewData) : gmap string InterviewData :=
  list_to_map ((fun r => (id r, r)) <$> records).

(** [0 <= x] on numbers: [x] is no [NaN] and not below zero. *)
Definition nonNegative (x : JS.number) : Prop := JS.leb (JS.of_Z 0) x = true.

(** The number is not [NaN] and its sign bit is [s]. *)
Definition signed (s : bool) (x : JS.number) : Prop :=
  match x with
  | S754_zero s' | S754_infinity s' | S754_finite s' _ _ => s' = s
  | S754_nan => False
  end.

(** ** The world after a step *)

(** The world once a request has gone out and settled. *)
Definition logged (req : request) (settled : fetched) (w : World) : World :=
  set_traffic (traffic w ++ [(req, settled)]) w.

Definition set_etag (v : option string) (w : World) : World :=
  {| sessionMode := sessionMode w; interviews := interviews w; isLoading := isLoading w;
     syncUrl := syncUrl w; syncStatus := syncStatus w; syncError := syncError w;
     etag := v; localStorage := localStorage w; store := store w; traffic := traffic w |}.

(** The world once the entity tag of an answer has been recorded, if the
    answer carries one. *)
Definition tagged (r : response) (w : World) : World :=
  if JS.truthy_opt (header_ETag r) then set_etag (header_ETag r) w else w.

(** The entity tag a poll sends in its [If-None-Match] header, if any. *)
Definition sentTag (w : World) : option string :=
  if JS.truthy_opt (etag w) then etag w else None.

(** [Array.isArray(data) ? data : []] *)
Definition arrayOrEmpty (data : json) : list InterviewData :=
  match data with
  | JArray records => records
  | _ => []
  end.

(** The values of a store, each once, in some order. *)
Definition storedRecords (st : gmap string InterviewData) : list InterviewData :=
  snd <$> map_to_list st.

(** The local overwrite can go through: the database opens, the clear
    succeeds, every insert succeeds. *)
Definition localWriteSucceeds (env : Env) (records : list InterviewData) : Prop :=
  idb_open env = true /\ idb_clear env = true /\ insertsSucceed env records.

(** The array cannot be fetched: no answer, a status that is no success, or
    a body that is no JSON. *)
Definition unreadable (settled : fetched) : Prop :=
  match settled with
  | NetworkFailure _ => True
  | Answer r => ok r = false \/ exists message, body_json r = SyntaxError message
  end.

(** ** Sample data *)

Module Sample.

Definition getTime (s : string) : option Z :=
  if String.eqb s "2024-01-01T10:00:00Z" then Some 1704103200000
  else if String.eqb s "2024-02-01T10:00:00Z" then Some 1706781600000
  else None.

Definition first : InterviewData :=
  {| id := "a"; location := DARMIPARK;
     previousTravelMode := TravelMode.CAR;
     previousPaymentType := PaymentType.TICKET;
     previousWeeklyCost := JS.of_Z 10;
     usesParkAndRide := true;
     interviewDateTime := "2024-01-01T10:00:00Z" |}.

Definition second : InterviewData :=
  {| id := "b"; location := PALAPARK;
     previousTravelMode := TravelMode.TPL;
     previousPaymentType := PaymentType.SUBSCRIPTION;
     previousWeeklyCost := JS.of_Z 7;
     usesParkAndRide := false;
     interviewDateTime := "2024-02-01T10:00:00Z" |}.

(** A record with the [id] of [first] and other answers. *)
Definition firstAgain : InterviewData :=
  {| id := "a"; location := PALAPARK;
     previousTravelMode := TravelMode.ALTRO;
     previousPaymentType := PaymentType.NONE;
     previousWeeklyCost := JS.of_Z 0;
     usesParkAndRide := false;
     interviewDateTime := "2024-02-01T10:00:00Z" |}.

Definition binUrl : string := "https://kvdb.io/Bucket1/interviews".

(** The application before a session is chosen. *)
Definition welcome : World :=
  {| sessionMode := SessionMode.welcome; interviews := []; isLoading := false;
     syncUrl := None; syncStatus := SyncStatus.idle; syncError := None;
     etag := None; localStorage := ∅; store := ∅; traffic := [] |}.

(** A shared session that holds [first]. *)
Definition shared : World :=
  {| sessionMode := SessionMode.online; interviews := [first]; isLoading := false;
     syncUrl := Some binUrl; syncStatus := SyncStatus.connected; syncError := None;
     etag := Some "v1";
     localStorage := <["syncUrl" := binUrl]> (<["sessionMode" := "online"]> ∅);
     store := <["a" := first]> ∅; traffic := [] |}.

Definition reply (code : Z) (tag : option string) (text : string) (data : json_result)
    : response :=
  {| status := code; header_ETag := tag; body_text := text; body_json := data |}.

(** A device whose storage works, on a network that settles every
    request as [settled], with a user who answers [answer]. *)
Definition device (settled : fetched) (answer : bool) : Env :=
  {| net := fun _ => settled; confirm := answer;
     idb_open := true; idb_clear := true; idb_add := fun _ => true |}.

(** A reading of the one cost text the samples use: 2.5. *)
Definition parseFloat (s : string) : JS.number :=
  if String.eqb s "2.50" then binary_normalize JS.prec JS.emax 5 (-1) false
  else S754_nan.

Definition filledForm : Form :=
  {| form_location := Some DARMIPARK;
     form_previousTravelMode := TravelMode.CAR;
     form_previousPaymentType := PaymentType.SUBSCRIPTION;
     form_cost := "2,50";
     form_costFrequency := CostFrequency.MONTHLY;
     form_usesParkAndRide := true |}.

Definition host : Host :=
  {| host_idInstant := "2024-02-01T10:00:00.000Z";
     host_random := "0.25";
     host_instant := "2024-02-01T10:00:00.001Z" |}.

Definition offline : Env := device (NetworkFailure "Failed to fetch") true.

Definition serverError : Env :=
  device (Answer (reply 500 None "Internal Server Error"
                    (SyntaxError "Unexpected token I in JSON"))) true.

(** A device whose storage works and whose network answers every request
    with status 200, the entity tag "v2" and the given array. *)
Definition serving (records : list InterviewData) : Env :=
  device (Answer (reply 200 (Some "v2") "[...]" (Parsed (JArray records)))) true.

(** A host that sends the conditional GET of the poll as a plain GET of
    the URL. *)
Definition conditionalGet (url : string) (tag : option string) : Async response :=
  fetch (fetchAllRequest url).

(** A device whose storage works and whose network answers every request
    with the given status, no entity tag and an empty body. *)
Definition answering (code : Z) : Env :=
  device (Answer (reply code None "-" (SyntaxError "Unexpected end of JSON input"))) true.

(** The days of a device on universal time, for the one day the samples
    filter by. *)
Definition dayStart (s : string) : option Z :=
  if String.eqb s "2024-01-15" then Some 1705276800000 else None.

Definition dayEnd (s : string) : option Z :=
  if String.eqb s "2024-01-15" then Some 1705363199999 else None.

End Sample.

(** * Properties *)

(** ** The stable sort *)

Section SortFacts.
Context {A : Type} (compareFn : A -> A -> option Z).

Lemma sort_insert_Permutation x l :
  Permutation (x :: l) (JS.sort_insert compareFn x l).
Proof.
  induction l as [|y l IH]; simpl; [reflexivity|].
  destruct (0 <? JS.sortCompare compareFn x y); [|reflexivity].
  rewrite perm_swap. now apply perm_skip.
Qed.

Lemma Array_sort_Permutation l :
  Permutation l (JS.Array_sort compareFn l).
Proof.
  induction l as [|x l IH]; simpl; [constructor|].
  rewrite <- sort_insert_Permutation. now apply perm_skip.
Qed.
End SortFacts.

Section SortInterviewsFacts.
Variable getTime : string -> option Z.

Lemma sortCompare_byDateDesc a b ta tb :
  getTime (interviewDateTime a) = Some ta ->
  getTime (interviewDateTime b) = Some tb ->
  JS.sortCompare (byDateDesc getTime) a b = tb - ta.
Proof.
  intros Ha Hb. unfold JS.sortCompare, byDateDesc. now rewrite Ha, Hb.
Qed.

Lemma newerOrEqual_trans a b c :
  newerOrEqual getTime a b -> newerOrEqual getTime b c -> newerOrEqual getTime a c.
Proof.
  unfold newerOrEqual.
  destruct (getTime (interviewDateTime a)), (getTime (interviewDateTime b)),
    (getTime (interviewDateTime c)); try tauto; lia.
Qed.

Lemma datesValid_sortInterviews data :
  datesValid getTime data -> datesValid getTime (sortInterviews getTime data).
Proof.
  unfold datesValid, sortInterviews. intros H.
  eapply Permutation_Forall; [apply Array_sort_Permutation | exact H].
Qed.

Lemma sort_insert_sorted x l :
  is_Some (getTime (interviewDateTime x)) ->
  datesValid getTime l ->
  StronglySorted (newerOrEqual getTime) l ->
  StronglySorted (newerOrEqual getTime) (JS.sort_insert (byDateDesc getTime) x l).
Proof.
  intros [tx Hx] Hvalid Hsorted.
  induction Hsorted as [|y l Hl IH Hy]; simpl.
  - repeat constructor.
  - apply Forall_cons_1 in Hvalid as [[ty Hty] Hvalid].
    rewrite (sortCompare_byDateDesc x y tx ty Hx Hty).
    destruct (0 <? ty - tx) eqn:Hlt.
    + apply Z.ltb_lt in Hlt. constructor; [now apply IH|].
      eapply Permutation_Forall; [apply sort_insert_Permutation|].
      constructor; [|exact Hy].
      unfold newerOrEqual. rewrite Hx, Hty. lia.
    + apply Z.ltb_ge in Hlt.
      assert (Hxy : newerOrEqual getTime x y)
        by (unfold newerOrEqual; rewrite Hx, Hty; lia).
      constructor; [now constructor|].
      constructor; [exact Hxy|].
      eapply Forall_impl; [exact Hy|].
      intros z Hz. now apply (newerOrEqual_trans x y z).
Qed.

Lemma sortInterviews_sorted data :
  datesValid getTime data ->
  StronglySorted (newerOrEqual getTime) (sortInterviews getTime data).
Proof.
  unfold sortInterviews.
  induction data as [|x data IH]; intros Hvalid; simpl; [constructor|].
  apply Forall_cons_1 in Hvalid as [Hx Hvalid].
  apply sort_insert_sorted; [exact Hx| |now apply IH].
  now apply datesValid_sortInterviews.
Qed.

Lemma sortInterviews_of_sorted data :
  StronglySorted (newerOrEqual getTime) data ->
  sortInterviews getTime data = data.
Proof.
  unfold sortInterviews.
  induction 1 as [|x l Hl IH Hx]; simpl; [reflexivity|].
  rewrite IH. destruct l as [|y l]; simpl; [reflexivity|].
  apply Forall_cons_1 in Hx as [Hxy _].
  unfold newerOrEqual in Hxy.
  destruct (getTime (interviewDateTime x)) as [tx|] eqn:Ex; [|contradiction].
  destruct (getTime (interviewDateTime y)) as [ty|] eqn:Ey; [|contradiction].
  rewrite (sortCompare_byDateDesc x y tx ty Ex Ey).
  destruct (0 <? ty - tx) eqn:Hlt; [apply Z.ltb_lt in Hlt; lia|reflexivity].
Qed.

Lemma dated_sort_insert t x l :
  datesValid getTime (x :: l) ->
  dated getTime t (JS.sort_insert (byDateDesc getTime) x l) = dated getTime t (x :: l).
Proof.
  intros Hvalid. apply Forall_cons_1 in Hvalid as [[tx Hx] Hvalid].
  induction l as [|y l IH]; simpl; [reflexivity|].
  apply Forall_cons_1 in Hvalid as [[ty Hy] Hvalid].
  rewrite (sortCompare_byDateDesc x y tx ty Hx Hy).
  destruct (0 <? ty - tx) eqn:Hlt; [|reflexivity].
  apply Z.ltb_lt in Hlt. unfold dated in *.
  rewrite filter_cons, (IH Hvalid), !filter_cons.
  repeat case_decide; try reflexivity.
  (* both dated [t]: then [tx = ty], against [tx < ty] *)
  exfalso. rewrite Hx, Hy in *. simplify_eq. lia.
Qed.

Lemma dated_sortInterviews t data :
  datesValid getTime data ->
  dated getTime t (sortInterviews getTime data) = dated getTime t data.
Proof.
  unfold sortInterviews.
  induction data as [|x data IH]; intros Hvalid; simpl; [reflexivity|].
  apply Forall_cons_1 in Hvalid as [Hx Hvalid].
  rewrite dated_sort_insert.
  - unfold dated in *. rewrite !filter_cons, (IH Hvalid). reflexivity.
  - constructor; [exact Hx|]. now apply datesValid_sortInterviews.
Qed.

Lemma dated_head_elem t x l r :
  dated getTime t l = x :: r -> x ∈ l /\ getTime (interviewDateTime x) = Some t.
Proof.
  intros H. assert (Hin : x ∈ dated getTime t l) by (rewrite H; constructor).
  unfold dated in Hin. apply list_elem_of_filter in Hin. tauto.
Qed.

Lemma stable_sorted_unique l1 : forall l2,
  datesValid getTime l1 -> datesValid getTime l2 ->
  StronglySorted (newerOrEqual getTime) l1 ->
  StronglySorted (newerOrEqual getTime) l2 ->
  (forall t, dated getTime t l1 = dated getTime t l2) ->
  l1 = l2.
Proof.
  induction l1 as [|x l1 IH]; intros l2 Hv1 Hv2 Hs1 Hs2 Hsame.
  - destruct l2 as [|y l2]; [reflexivity|].
    apply Forall_cons_1 in Hv2 as [[ty Hy] _].
    specialize (Hsame ty). unfold dated in Hsame.
    rewrite filter_cons in Hsame. case_decide; [discriminate|contradiction].
  - apply Forall_cons_1 in Hv1 as [[tx Hx] Hv1].
    apply StronglySorted_inv in Hs1 as [Hs1 Hx1].
    destruct l2 as [|y l2].
    { specialize (Hsame tx). unfold dated in Hsame.
      rewrite filter_cons in Hsame. case_decide; [discriminate|contradiction]. }
    apply Forall_cons_1 in Hv2 as [[ty Hy] Hv2].
    apply StronglySorted_inv in Hs2 as [Hs2 Hy2].
    assert (Heq : tx = ty).
    { destruct (decide (tx = ty)) as [|Hne]; [assumption|exfalso].
      pose proof (Hsame tx) as Htx. pose proof (Hsame ty) as Hty.
      unfold dated in Htx, Hty. rewrite !filter_cons in Htx, Hty.
      repeat case_decide; try congruence.
      symmetry in Htx.
      apply dated_head_elem in Htx as [Hxin _].
      apply dated_head_elem in Hty as [Hyin _].
      rewrite Forall_forall in Hx1, Hy2.
      specialize (Hx1 y Hyin). specialize (Hy2 x Hxin).
      unfold newerOrEqual in Hx1, Hy2. rewrite Hx, Hy in *. lia. }
    subst ty.
    assert (Hxy : x = y).
    { specialize (Hsame tx). unfold dated in Hsame. rewrite !filter_cons in Hsame.
      repeat case_decide; congruence. }
    subst y. f_equal. apply IH; try assumption.
    intros t. specialize (Hsame t). unfold dated in *. rewrite !filter_cons in Hsame.
    case_decide; congruence.
Qed.

(** On dates that parse the result of [sortInterviews] does not depend on
    how the engine sorts: it is the one list that is ordered by date, newest
    first, and keeps the records of every date in the order they had. *)
Lemma sortInterviews_unique D l :
  datesValid getTime D ->
  datesValid getTime l ->
  StronglySorted (newerOrEqual getTime) l ->
  (forall t, dated getTime t l = dated getTime t D) ->
  l = sortInterviews getTime D.
Proof.
  intros HD Hl Hsorted Hsame.
  apply stable_sorted_unique; try assumption.
  - now apply datesValid_sortInterviews.
  - now apply sortInterviews_sorted.
  - intros t. now rewrite Hsame, dated_sortInterviews.
Qed.

(** C7. On a dataset whose records carry dates that parse,
    [sortInterviews] returns the same records ordered by
    [interviewDateTime], newest first, and sorting the result again changes
    nothing; records of equal date are covered like any others. *)
Theorem sortInterviews_descending_idempotent (D : list InterviewData) :
  datesValid getTime D ->
  Permutation D (sortInterviews getTime D) /\
  StronglySorted (newerOrEqual getTime) (sortInterviews getTime D) /\
  sortInterviews getTime (sortInterviews getTime D) = sortInterviews getTime D.
Proof.
  intros Hvalid. split; [apply Array_sort_Permutation|].
  split; [now apply sortInterviews_sorted|].
  apply sortInterviews_of_sorted. now apply sortInterviews_sorted.
Qed.

End SortInterviewsFacts.

(** C7, at a dataset in which two records share a date. *)
Lemma sortInterviews_descending_idempotent_witness :
  let D := [Sample.first; Sample.second; Sample.first] in
  datesValid Sample.getTime D /\
  (Permutation D (sortInterviews Sample.getTime D) /\
   StronglySorted (newerOrEqual Sample.getTime) (sortInterviews Sample.getTime D) /\
   sortInterviews Sample.getTime (sortInterviews Sample.getTime D)
   = sortInterviews Sample.getTime D).
Proof.
  assert (Hvalid : datesValid Sample.getTime [Sample.first; Sample.second; Sample.first])
    by (repeat constructor; vm_compute; eauto).
  split; [exact Hvalid|].
  exact (sortInterviews_descending_idempotent Sample.getTime _ Hvalid).
Defined.

(** The scenario of the specification: adding a newer record to a dataset
    puts it first. *)
Example sortInterviews_scenario :
  sortInterviews Sample.getTime ([Sample.first] ++ [Sample.second])
  = [Sample.second; Sample.first].
Proof. reflexivity. Qed.

(** ** Running an operation *)

Ltac run :=
  unfold mbind, mret, Async_bind, Async_ret, try_catch, try_finally, throw,
    when, gets, ask, modify, window_confirm, fetch, response_json,
    transaction, getDb.

(** Case analysis on what the environment and the world decide. *)
Ltac plain x :=
  lazymatch x with
  | context [match _ with _ => _ end] => fail
  | _ => idtac
  end.

Ltac crunch :=
  repeat (simpl;
          match goal with
          | H : ?x = _ |- context [match ?x with _ => _ end] => rewrite H
          | |- context [match ?x with _ => _ end] => plain x; destruct x eqn:?
          end);
  simpl; try reflexivity.

(** ** Fetching the bin *)

(** C3, refuted as stated: an answer with status 200 whose payload is a JSON
    object makes [getBinData] return the empty list; nothing is thrown. *)
Lemma getBinData_object_counterexample :
  let env := Sample.device (Answer (Sample.reply 200 None "{}" (Parsed JObject))) true in
  ok (Sample.reply 200 None "{}" (Parsed JObject)) = true /\
  fst (getBinData Sample.binUrl env Sample.welcome) = Returns [].
Proof. split; reflexivity. Qed.

(** C3, amended: when the service answers with a success status and a
    payload that is JSON but no array, [getBinData] succeeds and returns the
    empty list. *)
Theorem getBinData_not_array url env w r data :
  net env (fetchAllRequest url) = Answer r ->
  ok r = true ->
  body_json r = Parsed data ->
  (forall records, data <> JArray records) ->
  fst (getBinData url env w) = Returns [].
Proof.
  intros Hnet Hok Hbody Hshape.
  unfold getBinData, recordEtag, setEtag. run.
  fold (fetchAllRequest url). rewrite Hnet, Hok. simpl. rewrite Hbody.
  destruct (JS.truthy_opt (header_ETag r)); simpl;
    destruct data; try reflexivity; now contradiction (Hshape records).
Qed.

Lemma getBinData_not_array_witness :
  fst (getBinData Sample.binUrl
         (Sample.device (Answer (Sample.reply 200 (Some "v2") "null" (Parsed JNull))) true)
         Sample.shared) = Returns [].
Proof.
  apply (getBinData_not_array Sample.binUrl _ Sample.shared
           (Sample.reply 200 (Some "v2") "null" (Parsed JNull)) JNull);
    [reflexivity | reflexivity | reflexivity | intros records; discriminate].
Defined.

(** The failures of [getBinData]: no answer, a status that is no success,
    a body that is no JSON. *)
Lemma getBinData_failures url env w :
  (forall message, net env (fetchAllRequest url) = NetworkFailure message ->
     fst (getBinData url env w) = Throws (Error message)) /\
  (forall r, net env (fetchAllRequest url) = Answer r -> ok r = false ->
     fst (getBinData url env w)
     = Throws (Error ("Impossibile recuperare i dati. (HTTP " +:+ pretty (status r) +:+ ")"))) /\
  (forall r message, net env (fetchAllRequest url) = Answer r -> ok r = true ->
     body_json r = SyntaxError message ->
     fst (getBinData url env w) = Throws (Error message)).
Proof.
  unfold getBinData, recordEtag, setEtag. run. fold (fetchAllRequest url).
  repeat split.
  - intros message ->. reflexivity.
  - intros r -> ->. reflexivity.
  - intros r message -> -> Hbody. simpl. rewrite Hbody.
    now destruct (JS.truthy_opt (header_ETag r)).
Qed.

(** ** Joining a shared session *)

(** C4, refuted as stated: the answer of the service carries an entity tag,
    the user declines, and the freshness token has changed. *)
Lemma handleConnectSession_declined_counterexample :
  let env := Sample.device
    (Answer (Sample.reply 200 (Some "v2") "[]" (Parsed (JArray [Sample.second])))) false in
  let run := handleConnectSession Sample.getTime Sample.binUrl true env Sample.welcome in
  fst run = Returns tt /\
  etag Sample.welcome = None /\
  etag (snd run) = Some "v2".
Proof. repeat split; reflexivity. Qed.

(** C4, amended: when [handleConnectSession] asks for the confirmation and
    the user declines, the persisted association, the session mode and URL,
    the dataset in memory and the local store are what they were and the sync
    status is [idle]; the freshness token is what it was when the answer
    carried no entity tag (or an empty one), and is that entity tag
    otherwise.  (The error message of the session has been cleared on the
    way, and the loading flag is down.) *)
Theorem handleConnectSession_declined getTime url env w r data :
  JS.startsWith url "https://kvdb.io/" = true ->
  net env (fetchAllRequest url) = Answer r ->
  ok r = true ->
  body_json r = Parsed data ->
  confirm env = false ->
  let run := handleConnectSession getTime url true env w in
  fst run = Returns tt /\
  localStorage (snd run) = localStorage w /\
  sessionMode (snd run) = sessionMode w /\
  syncUrl (snd run) = syncUrl w /\
  interviews (snd run) = interviews w /\
  store (snd run) = store w /\
  syncStatus (snd run) = SyncStatus.idle /\
  etag (snd run) = (if JS.truthy_opt (header_ETag r) then header_ETag r else etag w) /\
  syncError (snd run) = None /\
  isLoading (snd run) = false.
Proof.
  intros Hurl Hnet Hok Hbody Hconfirm.
  unfold handleConnectSession. rewrite Hurl. simpl negb. cbv iota.
  unfold getBinData, recordEtag, setSyncStatus, setSyncError, setIsLoading, setEtag.
  run. fold (fetchAllRequest url). simpl. rewrite Hnet, Hok. simpl.
  rewrite Hbody, Hconfirm.
  destruct (JS.truthy_opt (header_ETag r)); simpl; repeat split; reflexivity.
Qed.

Lemma handleConnectSession_declined_witness :
  let r := Sample.reply 200 None "[]" (Parsed (JArray [Sample.second])) in
  let run := handleConnectSession Sample.getTime Sample.binUrl true
               (Sample.device (Answer r) false) Sample.welcome in
  interviews (snd run) = [] /\ syncStatus (snd run) = SyncStatus.idle /\
  etag (snd run) = None.
Proof.
  destruct (handleConnectSession_declined Sample.getTime Sample.binUrl
              (Sample.device (Answer (Sample.reply 200 None "[]"
                                        (Parsed (JArray [Sample.second])))) false)
              Sample.welcome _ _ eq_refl eq_refl eq_refl eq_refl eq_refl)
    as (_ & _ & _ & _ & Hdata & _ & Hstatus & Htag & _).
  split; [exact Hdata | split; [exact Hstatus | exact Htag]].
Defined.

(** ** The check of the capability URL *)

(** C6, refuted as stated.  [handleCreateSession] stores the text of the
    answer as the URL of the session without looking at it; [addInterview]
    then sends its PATCH to that URL although it does not begin with
    [https://kvdb.io/], and succeeds. *)
Lemma addInterview_unchecked_url_counterexample :
  let created := Sample.device
    (Answer (Sample.reply 200 None "http://mirror.example/bin" (SyntaxError "Unexpected token h"))) true in
  let w := snd (handleCreateSession created Sample.welcome) in
  let answer := Answer (Sample.reply 200 None "OK" (SyntaxError "Unexpected token O")) in
  let run := addInterview Sample.getTime Sample.second (Sample.device answer true) w in
  sessionMode w = SessionMode.online /\
  syncUrl w = Some "http://mirror.example/bin" /\
  JS.startsWith "http://mirror.example/bin" "https://kvdb.io/" = false /\
  fst run = Returns tt /\
  traffic (snd run)
  = (traffic w ++ [(appendRequest "http://mirror.example/bin" Sample.second, answer)])%list.
Proof. repeat split; reflexivity. Qed.

(** C6, amended: [handleConnectSession] rejects a URL that does not begin
    with [https://kvdb.io/] with the error "URL non valido.", sends no
    request and touches nothing but the error message of the session;
    [addInterview], [clearInterviews] and [replaceInterviews] send their
    request to the URL of the shared session as it is stored. *)
Theorem handleConnectSession_invalid_url getTime url shouldConfirm env w :
  JS.startsWith url "https://kvdb.io/" = false ->
  (let run := handleConnectSession getTime url shouldConfirm env w in
   fst run = Throws (Error "URL non valido.") /\
   traffic (snd run) = traffic w /\
   syncError (snd run)
   = Some "URL non valido. Assicurati che inizi con 'https://kvdb.io/'." /\
   (sessionMode (snd run), interviews (snd run), syncUrl (snd run),
    syncStatus (snd run), etag (snd run), localStorage (snd run), store (snd run))
   = (sessionMode w, interviews w, syncUrl w, syncStatus w, etag w,
      localStorage w, store w)) /\
  (forall stored interview records, sharedUrl w = Some stored ->
     (exists settled,
        traffic (snd (addInterview getTime interview env w))
        = (traffic w ++ [(appendRequest stored interview, settled)])%list) /\
     (exists settled,
        traffic (snd (clearInterviews env w))
        = (traffic w ++ [(overwriteRequest stored [], settled)])%list) /\
     (exists settled,
        traffic (snd (replaceInterviews getTime records env w))
        = (traffic w ++ [(overwriteRequest stored (sortInterviews getTime records), settled)])%list)).
Proof.
  intros Hurl. split.
  - unfold handleConnectSession. rewrite Hurl. simpl. repeat split; reflexivity.
  - intros stored interview records Hshared. repeat split.
    + exists (net env (appendRequest stored interview)).
      unfold addInterview, addInterviewDB, recordEtag, store_add,
        setInterviews, setSyncStatus, setSyncError, setEtag.
      run. simpl.
      replace (sharedUrl _) with (Some stored) by (rewrite <- Hshared; reflexivity).
      simpl. fold (appendRequest stored interview). crunch.
    + exists (net env (overwriteRequest stored [])).
      unfold clearInterviews, clearAllInterviewsDB, setInterviews.
      run. simpl. rewrite Hshared. simpl. fold (overwriteRequest stored []). crunch.
    + exists (net env (overwriteRequest stored (sortInterviews getTime records))).
      unfold replaceInterviews, replaceInterviewsDB, recordEtag, setInterviews, setEtag.
      run. simpl. rewrite Hshared. simpl.
      fold (overwriteRequest stored (sortInterviews getTime records)). crunch.
Qed.

Lemma handleConnectSession_invalid_url_witness :
  let run := handleConnectSession Sample.getTime "http://mirror.example/bin" true
               Sample.offline Sample.shared in
  fst run = Throws (Error "URL non valido.") /\ traffic (snd run) = [].
Proof.
  destruct (handleConnectSession_invalid_url Sample.getTime "http://mirror.example/bin"
              true Sample.offline Sample.shared eq_refl)
    as [(Hthrown & Hsent & _) _].
  split; assumption.
Defined.

(** ** The local store *)

Lemma storeOf_cons r l : storeOf (r :: l) = <[id r := r]> (storeOf l).
Proof. reflexivity. Qed.

Lemma storeOf_lookup_None l k : k ∉ id <$> l -> storeOf l !! k = None.
Proof.
  intros Hk. apply not_elem_of_list_to_map_1.
  now rewrite <- list_fmap_compose.
Qed.

Lemma store_add_each_Some env l : forall st,
  NoDup (id <$> l) ->
  Forall (fun r => idb_add env r = true) l ->
  (forall r, r ∈ l -> st !! id r = None) ->
  store_add_each env l st = Some (storeOf l ∪ st).
Proof.
  induction l as [|r l IH]; intros st Hnodup Hok Hfree; simpl.
  - unfold storeOf. simpl. now rewrite (left_id_L ∅ (∪)).
  - apply NoDup_cons in Hnodup as [Hr Hnodup].
    apply Forall_cons_1 in Hok as [Hadd Hok].
    unfold store_add. rewrite (Hfree r) by constructor. rewrite Hadd.
    rewrite IH; [|assumption|assumption|].
    + rewrite storeOf_cons, <- insert_union_l, insert_union_r; [reflexivity|].
      now apply storeOf_lookup_None.
    + intros r' Hr'. rewrite lookup_insert_ne.
      * apply Hfree. now constructor.
      * intros Heq. apply Hr. rewrite Heq. now apply list_elem_of_fmap_2.
Qed.

Lemma store_add_each_inv env l : forall st st',
  store_add_each env l st = Some st' ->
  NoDup (id <$> l) /\ Forall (fun r => idb_add env r = true) l /\
  (forall r, r ∈ l -> st !! id r = None).
Proof.
  induction l as [|r l IH]; intros st st' H; simpl in *.
  - repeat split; [constructor|constructor|]. intros r Hr. inversion Hr.
  - unfold store_add in H.
    destruct (st !! id r) eqn:Hfree; [discriminate|].
    destruct (idb_add env r) eqn:Hadd; [|discriminate].
    apply IH in H as (Hnodup & Hok & Hrest).
    assert (Hr : id r ∉ id <$> l).
    { intros Hin. apply list_elem_of_fmap in Hin as (r' & Heq & Hr').
      specialize (Hrest r' Hr'). rewrite <- Heq, lookup_insert_eq in Hrest. discriminate. }
    repeat split.
    + now constructor.
    + now constructor.
    + intros r' Hr'. apply elem_of_cons in Hr' as [->|Hr']; [assumption|].
      specialize (Hrest r' Hr'). rewrite lookup_insert_ne in Hrest; [assumption|].
      intros Heq. apply Hr. rewrite Heq. now apply list_elem_of_fmap_2.
Qed.

Lemma store_add_each_empty env l st :
  store_add_each env l ∅ = Some st <-> insertsSucceed env l /\ st = storeOf l.
Proof.
  split.
  - intros H. pose proof (store_add_each_inv _ _ _ _ H) as (Hnodup & Hok & _).
    split; [now split|].
    rewrite store_add_each_Some in H; [|assumption|assumption|intros; apply lookup_empty].
    rewrite (right_id_L ∅ (∪)) in H. congruence.
  - intros [[Hnodup Hok] ->].
    rewrite store_add_each_Some; [|assumption|assumption|intros; apply lookup_empty].
    now rewrite (right_id_L ∅ (∪)).
Qed.

(** C2, refuted as stated: the clear succeeds, the second record has the
    [id] of the first, its [add] fails, and the promise is rejected; the
    store is what it was before the call. *)
Lemma replaceInterviewsDB_duplicate_counterexample :
  let env := Sample.device (NetworkFailure "unused") true in
  let run := replaceInterviewsDB [Sample.first; Sample.firstAgain] env Sample.shared in
  idb_clear env = true /\
  fst run = Throws (Reason "Transaction failed while replacing interviews.") /\
  store (snd run) = store Sample.shared.
Proof. repeat split; reflexivity. Qed.

(** C2, amended: [replaceInterviewsDB] resolves when the database opens,
    the clear succeeds and every insert succeeds, and the store then holds
    exactly the given records; when the clear fails, or when an insert
    fails, the promise is rejected and the store is what it was. *)
Theorem replaceInterviewsDB_outcome records env w :
  let run := replaceInterviewsDB records env w in
  (fst run = Returns tt <->
   idb_open env = true /\ idb_clear env = true /\ insertsSucceed env records) /\
  (fst run = Returns tt -> snd run = set_store (storeOf records) w) /\
  (idb_open env = true -> idb_clear env = false ->
   run = (Throws (Reason "Could not clear interviews from the database."), w)) /\
  (idb_open env = true -> idb_clear env = true -> ~ insertsSucceed env records ->
   run = (Throws (Reason "Transaction failed while replacing interviews."), w)) /\
  (idb_open env = false -> run = (Throws (Reason "Error opening database"), w)).
Proof.
  assert (Hadded :
    match records with [] => Some ∅ | _ :: _ => store_add_each env records ∅ end
    = store_add_each env records ∅) by now destruct records.
  unfold replaceInterviewsDB. run. simpl. rewrite Hadded.
  destruct (idb_open env), (idb_clear env); simpl;
    try (repeat split; first [intuition discriminate | reflexivity]).
  destruct (store_add_each env records ∅) as [st|] eqn:Hst; simpl.
  - apply store_add_each_empty in Hst as [Hsucceed ->].
    pose proof Hsucceed as [Hnodup Hok].
    repeat split; try reflexivity; try discriminate; try assumption; intuition.
  - assert (Hno : ~ insertsSucceed env records).
    { intros Hsucceed.
      assert (Hsome : store_add_each env records ∅ = Some (storeOf records))
        by now apply store_add_each_empty.
      congruence. }
    repeat split; try reflexivity; try discriminate; intuition discriminate.
Qed.

(** ** Adding a record *)

(** C1, refuted as stated: in a shared session whose PATCH gets no answer,
    adding a record whose [id] the local store already holds under another
    record ends with the store holding the older record, not the new one:
    the add of the failure path is refused. *)
Lemma addInterview_remote_failure_counterexample :
  let run := addInterview Sample.getTime Sample.firstAgain Sample.offline Sample.shared in
  sharedUrl Sample.shared = Some Sample.binUrl /\
  failed (net Sample.offline (appendRequest Sample.binUrl Sample.firstAgain)) /\
  fst run = Throws (Reason "Could not add interview to the database.") /\
  store (snd run) !! id Sample.firstAgain = Some Sample.first /\
  store (snd run) !! id Sample.firstAgain <> Some Sample.firstAgain.
Proof. repeat split; try reflexivity. discriminate. Qed.

(** C1, amended: in a shared session, when the PATCH gets no answer or an
    answer whose status is no success, [addInterview] throws, the sync
    status is [error] and the dataset in memory is the sorted dataset with
    the record in it, whatever the local store does.  When the local store
    takes the record (the database opens, the [id] is new to the store, the
    engine accepts the write) the error thrown is the one of the request and
    the store holds the record; otherwise the reason of the store is thrown
    and the store is what it was. *)
Theorem addInterview_remote_failure getTime (r : InterviewData) env w url :
  sharedUrl w = Some url ->
  failed (net env (appendRequest url r)) ->
  let run := addInterview getTime r env w in
  (exists e, fst run = Throws e) /\
  syncStatus (snd run) = SyncStatus.error /\
  interviews (snd run) = sortInterviews getTime (interviews w ++ [r]) /\
  r ∈ interviews (snd run) /\
  (idb_open env = true /\ idb_add env r = true /\ store w !! id r = None ->
   (exists message, fst run = Throws (Error message)) /\
   store (snd run) = <[id r := r]> (store w) /\
   store (snd run) !! id r = Some r) /\
  (~ (idb_open env = true /\ idb_add env r = true /\ store w !! id r = None) ->
   (exists reason, fst run = Throws (Reason reason)) /\
   store (snd run) = store w).
Proof.
  intros Hshared Hfailed.
  assert (Hin : r ∈ sortInterviews getTime (interviews w ++ [r])).
  { apply list_elem_of_In.
    eapply Permutation_in; [apply Array_sort_Permutation|].
    apply in_or_app. right. now left. }
  unfold addInterview, addInterviewDB, recordEtag, store_add,
    setInterviews, setSyncStatus, setSyncError, setEtag.
  run. simpl.
  replace (sharedUrl _) with (Some url) by (rewrite <- Hshared; reflexivity).
  simpl. fold (appendRequest url r).
  destruct (net env (appendRequest url r)) as [message|answer]; simpl in *;
    [|rewrite Hfailed; simpl];
    destruct (idb_open env) eqn:Hopen; simpl;
    destruct (store w !! id r) eqn:Hfree; simpl;
    destruct (idb_add env r) eqn:Hadd; simpl;
    (split; [eauto|]); (split; [reflexivity|]); (split; [reflexivity|]);
    (split; [exact Hin|]); split;
    match goal with
    | |- ~ _ -> _ =>
        first [ intros _; split; [eexists; reflexivity | reflexivity]
              | intros Hrefused; exfalso; apply Hrefused; auto ]
    | |- _ -> _ =>
        first [ intros (Hopens & Htakes & Hnew); discriminate
              | intros _; split; [eexists; reflexivity|];
                split; [reflexivity | apply lookup_insert_eq] ]
    end.
Qed.

Lemma addInterview_remote_failure_witness :
  let run := addInterview Sample.getTime Sample.second Sample.serverError Sample.shared in
  store (snd run) !! "b" = Some Sample.second /\
  syncStatus (snd run) = SyncStatus.error /\
  interviews (snd run) = [Sample.second; Sample.first].
Proof.
  destruct (addInterview_remote_failure Sample.getTime Sample.second
              Sample.serverError Sample.shared Sample.binUrl eq_refl eq_refl)
    as (_ & Hstatus & Hdata & _ & Htaken & _).
  destruct (Htaken (conj eq_refl (conj eq_refl eq_refl))) as (_ & _ & Hstored).
  split; [exact Hstored | split; [exact Hstatus | exact Hdata]].
Defined.

(** ** Clearing *)

(** C5, refuted as stated: in a shared session whose overwrite request gets
    no answer, [clearInterviews] throws before it reaches the local store:
    the store and the dataset in memory keep their record. *)
Lemma clearInterviews_offline_counterexample :
  let run := clearInterviews Sample.offline Sample.shared in
  fst run = Throws (Error "Failed to fetch") /\
  store (snd run) !! "a" = Some Sample.first /\
  interviews (snd run) = [Sample.first].
Proof. repeat split; reflexivity. Qed.

(** C5, amended: when the overwrite request of a shared session is
    answered, with whatever status, and the clear of the local store
    succeeds, [clearInterviews] leaves the local store and the dataset in
    memory empty; so it does in a session that is not shared. *)
Theorem clearInterviews_clears env w :
  (forall url, sharedUrl w = Some url -> answered (net env (overwriteRequest url []))) ->
  idb_open env = true ->
  idb_clear env = true ->
  let run := clearInterviews env w in
  fst run = Returns tt /\ store (snd run) = ∅ /\ interviews (snd run) = [].
Proof.
  intros Hanswered Hopen Hclear.
  unfold clearInterviews, clearAllInterviewsDB, setInterviews. run. simpl.
  destruct (sharedUrl w) as [url|] eqn:Hshared; simpl.
  - specialize (Hanswered url eq_refl). fold (overwriteRequest url []).
    destruct (net env (overwriteRequest url [])) as [message|r]; [contradiction|].
    simpl. rewrite Hopen. simpl. rewrite Hclear. simpl. repeat split; reflexivity.
  - rewrite Hopen. simpl. rewrite Hclear. simpl. repeat split; reflexivity.
Qed.

Lemma clearInterviews_clears_witness :
  let run := clearInterviews Sample.serverError Sample.shared in
  fst run = Returns tt /\ store (snd run) = ∅ /\ interviews (snd run) = [].
Proof.
  apply (clearInterviews_clears Sample.serverError Sample.shared);
    [intros url _; exact I | reflexivity | reflexivity].
Defined.

(** ** Replacing the dataset *)






(** The two differ in the freshness token: [replaceInterviews] records the
    entity tag of the answer, [clearInterviews] keeps the old one. *)
Lemma replaceInterviews_nil_records_etag :
  let env := Sample.device (Answer (Sample.reply 200 (Some "v2") "OK" (SyntaxError "Unexpected token O"))) true in
  etag (snd (replaceInterviews Sample.getTime [] env Sample.shared)) = Some "v2" /\
  etag (snd (clearInterviews env Sample.shared)) = Some "v1".
Proof. split; reflexivity. Qed.

(** C10, refuted as stated: the service answers the overwrite with status
    500 and two records of the list share an [id]; the bulk load is
    rejected, and neither the local store nor the dataset in memory is
    overwritten. *)
Lemma replaceInterviews_duplicate_counterexample :
  let run := replaceInterviews Sample.getTime [Sample.second; Sample.second]
               Sample.serverError Sample.shared in
  fst run = Throws (Reason "Transaction failed while replacing interviews.") /\
  store (snd run) = store Sample.shared /\
  interviews (snd run) = [Sample.first].
Proof. repeat split; reflexivity. Qed.

Lemma insertsSucceed_Permutation env l l' :
  Permutation l l' -> insertsSucceed env l -> insertsSucceed env l'.
Proof.
  intros Hperm [Hnodup Hok]. split.
  - now rewrite <- Hperm.
  - now rewrite <- Hperm.
Qed.

(** C10, amended: [replaceInterviews] never touches the sync status or
    the sync error, whatever becomes of the overwrite request; and when that
    request is answered, with whatever status, the records of the list have
    pairwise different [id]s and the local store takes them, the local store
    and the dataset in memory hold the sorted records. *)
Theorem replaceInterviews_status_untouched getTime records env w :
  let run := replaceInterviews getTime records env w in
  (syncStatus (snd run) = syncStatus w /\ syncError (snd run) = syncError w) /\
  (forall url, sharedUrl w = Some url ->
     answered (net env (overwriteRequest url (sortInterviews getTime records))) ->
     idb_open env = true ->
     idb_clear env = true ->
     insertsSucceed env records ->
     fst run = Returns tt /\
     store (snd run) = storeOf (sortInterviews getTime records) /\
     interviews (snd run) = sortInterviews getTime records).
Proof.
  set (sorted := sortInterviews getTime records).
  assert (Hadded : forall st : option (gmap string InterviewData),
    match sorted with [] => Some ∅ | _ :: _ => store_add_each env sorted ∅ end
    = store_add_each env sorted ∅) by (intros _; now destruct sorted).
  unfold replaceInterviews, replaceInterviewsDB, recordEtag, setInterviews, setEtag.
  fold sorted. run. simpl. rewrite (Hadded None). split.
  - destruct (sharedUrl w) as [url|]; simpl; crunch; split; reflexivity.
  - intros url Hshared Hanswered Hopen Hclear Hsucceed.
    assert (Hst : store_add_each env sorted ∅ = Some (storeOf sorted)).
    { apply store_add_each_empty. split; [|reflexivity].
      eapply insertsSucceed_Permutation; [|exact Hsucceed].
      apply Array_sort_Permutation. }
    rewrite Hshared. simpl. fold (overwriteRequest url sorted).
    destruct (net env (overwriteRequest url sorted)) as [message|r]; [contradiction|].
    simpl. destruct (JS.truthy_opt (header_ETag r)); simpl;
      rewrite Hopen; simpl; rewrite Hclear, Hst; simpl; repeat split; reflexivity.
Qed.

Lemma replaceInterviews_status_untouched_witness :
  let run := replaceInterviews Sample.getTime [Sample.first; Sample.second]
               Sample.serverError Sample.shared in
  syncStatus (snd run) = SyncStatus.connected /\
  syncError (snd run) = None /\
  interviews (snd run) = [Sample.second; Sample.first].
Proof.
  destruct (replaceInterviews_status_untouched Sample.getTime
              [Sample.first; Sample.second] Sample.serverError Sample.shared)
    as [[Hstatus Herror] Hlocal].
  destruct (Hlocal Sample.binUrl eq_refl I eq_refl eq_refl) as (_ & _ & Hdata).
  - split; [compute_done | repeat constructor].
  - split; [exact Hstatus | split; [exact Herror | exact Hdata]].
Defined.

(** ** The weekly cost *)

Lemma iter_pos_preserves {A} (P : A -> Prop) (f : A -> A) :
  (forall x, P x -> P (f x)) -> forall p x, P x -> P (SpecFloat.iter_pos f p x).
Proof.
  intros Hf. induction p as [p IH|p IH|]; intros x Hx; simpl; auto.
Qed.

Lemma shr_1_nonneg mrs : 0 <= shr_m mrs -> 0 <= shr_m (shr_1 mrs).
Proof.
  destruct mrs as [m r s]. simpl.
  destruct m as [|[p|p|]|[p|p|]]; simpl; lia.
Qed.

Lemma shr_fexp_nonneg prec emax m e l :
  0 <= m -> 0 <= shr_m (fst (shr_fexp prec emax m e l)).
Proof.
  intros Hm. unfold shr_fexp, shr.
  assert (H0 : 0 <= shr_m (shr_record_of_loc m l))
    by (destruct l as [|[]]; simpl; exact Hm).
  destruct (fexp prec emax (Zdigits2 m + e) - e); simpl; try exact H0.
  apply (iter_pos_preserves (fun mrs => 0 <= shr_m mrs)); [apply shr_1_nonneg|exact H0].
Qed.

Lemma round_nearest_even_nonneg m l : 0 <= m -> 0 <= round_nearest_even m l.
Proof.
  intros Hm. destruct l as [|[]]; simpl; try lia.
  destruct (Z.even m); lia.
Qed.

Lemma binary_round_aux_signed prec emax s m e l :
  0 <= m -> signed s (binary_round_aux prec emax s m e l).
Proof.
  intros Hm. unfold binary_round_aux.
  pose proof (shr_fexp_nonneg prec emax m e l Hm) as H1.
  destruct (shr_fexp prec emax m e l) as [mrs' e']. simpl in H1.
  pose proof (shr_fexp_nonneg prec emax
                (round_nearest_even (shr_m mrs') (loc_of_shr_record mrs')) e' loc_Exact
                (round_nearest_even_nonneg _ _ H1)) as H2.
  destruct (shr_fexp prec emax _ e' loc_Exact) as [mrs'' e'']. simpl in H2.
  destruct (shr_m mrs''); simpl; [reflexivity| |lia].
  destruct (e'' <=? emax - prec); reflexivity.
Qed.

Lemma nonNegative_cases x :
  nonNegative x <->
  match x with
  | S754_zero _ => True
  | S754_infinity s | S754_finite s _ _ => s = false
  | S754_nan => False
  end.
Proof.
  unfold nonNegative, JS.leb, SFleb. simpl.
  destruct x as [s|s| |s m e]; simpl; try destruct s; intuition congruence.
Qed.

Lemma nonNegative_validated x :
  nonNegative x <-> JS.isNaN x = false /\ JS.ltb x (JS.of_Z 0) = false.
Proof.
  rewrite nonNegative_cases. unfold JS.ltb, SFltb. simpl.
  destruct x as [s|s| |s m e]; simpl; try destruct s; intuition congruence.
Qed.

Lemma mul_nonNegative x m e :
  nonNegative x -> nonNegative (JS.mul x (S754_finite false m e)).
Proof.
  rewrite !nonNegative_cases. unfold JS.mul.
  destruct x as [s|s| |s mx ex]; simpl; try tauto.
  - intros ->. reflexivity.
  - intros ->. simpl.
    pose proof (binary_round_aux_signed JS.prec JS.emax false
                  (Z.pos (mx * m)) (ex + e) loc_Exact ltac:(lia)) as H.
    destruct (binary_round_aux _ _ _ _ _ _); simpl in H; tauto.
Qed.

Lemma div_nonNegative x m e :
  nonNegative x -> nonNegative (JS.div x (S754_finite false m e)).
Proof.
  rewrite !nonNegative_cases. unfold JS.div.
  destruct x as [s|s| |s mx ex]; simpl; try tauto.
  - intros ->. reflexivity.
  - intros ->. simpl.
    unfold SFdiv_core_binary.
    set (m' := match _ - _ - _ with Z0 => Z.pos mx | Z.pos _ => _ | Z.neg _ => 0 end).
    assert (Hm' : 0 <= m').
    { subst m'. destruct (_ - _ - _); try lia. apply Z.shiftl_nonneg. lia. }
    pose proof (Z.div_pos m' (Z.pos m) Hm' ltac:(lia)) as Hq.
    unfold Z.div in Hq. destruct (Z.div_eucl m' (Z.pos m)) as [q r]. simpl in Hq.
    pose proof (binary_round_aux_signed JS.prec JS.emax false q
      (Z.min (fexp JS.prec JS.emax (Zdigits2 (Z.pos mx) + ex - (Zdigits2 (Z.pos m) + e))) (ex - e))
      (new_location (Z.pos m) r) Hq) as H.
    destruct (binary_round_aux _ _ _ _ _ _); simpl in H; tauto.
Qed.

(** C9. When the form asks for a cost (a location is chosen, the previous
    travel mode is the car or public transport, a payment type is chosen)
    and the cost read from the form is a number that is not below zero,
    [handleSubmit] hands over a record whose [previousWeeklyCost] is the
    weekly normalisation of that cost: the cost times 5 when it was given
    per day, the cost itself when per week, the cost times 12 divided by 52
    when per month, in binary64 arithmetic; and the stored cost is not below
    zero. *)
Theorem handleSubmit_weekly_cost parseFloat form host place :
  form_location form = Some place ->
  form_previousTravelMode form = TravelMode.CAR
  \/ form_previousTravelMode form = TravelMode.TPL ->
  form_previousPaymentType form <> PaymentType.NONE ->
  nonNegative (parseFloat (replaceComma (form_cost form))) ->
  let c := parseFloat (replaceComma (form_cost form)) in
  exists record,
    handleSubmit parseFloat form host = inr record /\
    previousWeeklyCost record = normalizeCostToWeekly c (form_costFrequency form) /\
    normalizeCostToWeekly c CostFrequency.DAILY = JS.mul c (JS.of_Z 5) /\
    normalizeCostToWeekly c CostFrequency.WEEKLY = c /\
    normalizeCostToWeekly c CostFrequency.MONTHLY
    = JS.div (JS.mul c (JS.of_Z 12)) (JS.of_Z 52) /\
    nonNegative (previousWeeklyCost record).
Proof.
  intros Hplace Hmode Hpayment Hcost c.
  pose proof (proj1 (nonNegative_validated c) Hcost) as [Hnan Hlt].
  assert (Hweekly : nonNegative (normalizeCostToWeekly c (form_costFrequency form))).
  { destruct (form_costFrequency form); simpl.
    - now apply mul_nonNegative.
    - exact Hcost.
    - apply div_nonNegative. now apply mul_nonNegative. }
  unfold handleSubmit. rewrite Hplace. fold c.
  destruct Hmode as [-> | ->]; rewrite Hnan, Hlt; simpl;
    (destruct (form_previousPaymentType form); [contradiction| |]);
    eexists; (split; [reflexivity|]); simpl; repeat split; assumption.
Qed.

Lemma handleSubmit_weekly_cost_witness :
  nonNegative (Sample.parseFloat (replaceComma (form_cost Sample.filledForm))) /\
  exists record,
    handleSubmit Sample.parseFloat Sample.filledForm Sample.host = inr record /\
    nonNegative (previousWeeklyCost record).
Proof.
  split; [reflexivity|].
  destruct (handleSubmit_weekly_cost Sample.parseFloat Sample.filledForm Sample.host
              DARMIPARK eq_refl (or_introl eq_refl) ltac:(discriminate) eq_refl)
    as (record & Hrecord & _ & _ & _ & _ & Hcost).
  exists record. split; [exact Hrecord | exact Hcost].
Defined.

(** With the travel mode "other" the form asks for no cost, and the record
    stores zero. *)
Lemma handleSubmit_other_mode parseFloat form host place :
  form_location form = Some place ->
  form_previousTravelMode form = TravelMode.ALTRO ->
  exists record,
    handleSubmit parseFloat form host = inr record /\
    previousWeeklyCost record = JS.of_Z 0 /\
    previousPaymentType record = PaymentType.NONE.
Proof.
  intros Hplace Hmode. unfold handleSubmit. rewrite Hplace, Hmode.
  eexists. repeat split.
Qed.

(** * The operations, path by path *)

(** ** Helpers: the steps every operation is made of *)

Lemma set_store_same w : set_store (store w) w = w.
Proof. now destruct w. Qed.

(** [replaceInterviewsDB] either stores exactly the records, or is rejected
    with a plain string and leaves the world alone. *)
Lemma replaceInterviewsDB_cases records env w :
  (idb_open env = true /\ idb_clear env = true /\ insertsSucceed env records /\
   replaceInterviewsDB records env w = (Returns tt, set_store (storeOf records) w)) \/
  ((idb_open env = false \/ idb_clear env = false \/ ~ insertsSucceed env records) /\
   exists reason, replaceInterviewsDB records env w = (Throws (Reason reason), w)).
Proof.
  assert (Hadded :
    match records with [] => Some ∅ | _ :: _ => store_add_each env records ∅ end
    = store_add_each env records ∅) by now destruct records.
  unfold replaceInterviewsDB. run. simpl. rewrite Hadded.
  destruct (idb_open env); simpl; [|right; split; [tauto|eauto]].
  destruct (idb_clear env); simpl; [|right; split; [tauto|eauto]].
  destruct (store_add_each env records ∅) as [st|] eqn:Hst; simpl.
  - apply store_add_each_empty in Hst as [Hsucceed ->]. left. tauto.
  - right. split; [|eauto]. right. right. intros Hsucceed.
    assert (Hsome : store_add_each env records ∅ = Some (storeOf records))
      by now apply store_add_each_empty.
    congruence.
Qed.

(** [getBinData], step by step. *)
Lemma getBinData_run url env w :
  getBinData url env w =
  let settled := net env (fetchAllRequest url) in
  let w' := logged (fetchAllRequest url) settled w in
  match settled with
  | NetworkFailure message => (Throws (Error message), w')
  | Answer r =>
      if ok r then
        match body_json r with
        | Parsed data => (Returns (arrayOrEmpty data), tagged r w')
        | SyntaxError message => (Throws (Error message), tagged r w')
        end
      else
        (Throws (Error ("Impossibile recuperare i dati. (HTTP " +:+ pretty (status r) +:+ ")")), w')
  end.
Proof.
  unfold getBinData, recordEtag, setEtag, tagged, logged, set_etag. run.
  fold (fetchAllRequest url). simpl.
  destruct (net env (fetchAllRequest url)) as [message|r]; simpl; [reflexivity|].
  destruct (ok r); simpl; [|reflexivity].
  destruct (JS.truthy_opt (header_ETag r)); simpl;
    destruct (body_json r); reflexivity.
Qed.

Ltac split_replaceInterviewsDB :=
  match goal with
  | |- context [replaceInterviewsDB ?records ?env ?w] =>
      let Hopen := fresh "Hopen" in
      let Hclear := fresh "Hclear" in
      let Hsucceed := fresh "Hsucceed" in
      let Hfail := fresh "Hfail" in
      let reason := fresh "reason" in
      let Hrun := fresh "Hrun" in
      destruct (replaceInterviewsDB_cases records env w)
        as [(Hopen & Hclear & Hsucceed & Hrun) | (Hfail & reason & Hrun)];
      rewrite Hrun; clear Hrun
  end.

Lemma tagged_fields r w :
  sessionMode (tagged r w) = sessionMode w /\ interviews (tagged r w) = interviews w /\
  syncUrl (tagged r w) = syncUrl w /\ syncStatus (tagged r w) = syncStatus w /\
  syncError (tagged r w) = syncError w /\ localStorage (tagged r w) = localStorage w /\
  store (tagged r w) = store w /\ traffic (tagged r w) = traffic w /\
  isLoading (tagged r w) = isLoading w /\
  etag (tagged r w) = (if JS.truthy_opt (header_ETag r) then header_ETag r else etag w).
Proof. unfold tagged. destruct (JS.truthy_opt (header_ETag r)); repeat split. Qed.

(** ** Manual sync *)

Section ManualSync.
Variable getTime : string -> option Z.

Lemma handleManualSync_no_url env w :
  JS.truthy_opt (syncUrl w) = false ->
  handleManualSync getTime env w = (Returns tt, w).
Proof.
  intros Hurl. unfold handleManualSync. run. simpl.
  destruct (syncUrl w) as [url|]; [|reflexivity].
  simpl in Hurl. now rewrite Hurl.
Qed.

Lemma handleManualSync_answered env w url r data :
  syncUrl w = Some url ->
  JS.truthy url = true ->
  net env (fetchAllRequest url) = Answer r ->
  ok r = true ->
  body_json r = Parsed data ->
  let sorted := sortInterviews getTime (arrayOrEmpty data) in
  let run := handleManualSync getTime env w in
  fst run = Returns tt /\
  interviews (snd run) = sorted /\
  etag (snd run) = (if JS.truthy_opt (header_ETag r) then header_ETag r else etag w) /\
  sessionMode (snd run) = sessionMode w /\
  syncUrl (snd run) = syncUrl w /\
  (localWriteSucceeds env sorted ->
   store (snd run) = storeOf sorted /\
   syncStatus (snd run) = SyncStatus.connected /\
   syncError (snd run) = None) /\
  (~ localWriteSucceeds env sorted ->
   store (snd run) = store w /\
   syncStatus (snd run) = SyncStatus.error /\
   syncError (snd run) = Some "Sincronizzazione manuale fallita: Errore sconosciuto").
Proof.
  intros Hurl Htruthy Hnet Hok Hbody sorted.
  unfold handleManualSync, setSyncStatus, setSyncError, setInterviews. run. simpl.
  rewrite Hurl, Htruthy. simpl.
  rewrite getBinData_run. simpl. rewrite Hnet, Hok, Hbody. simpl.
  fold sorted. unfold localWriteSucceeds, tagged, logged, set_etag.
  destruct (JS.truthy_opt (header_ETag r)); simpl;
    split_replaceInterviewsDB; simpl;
    repeat split; try reflexivity; try tauto; exfalso; intuition congruence.
Qed.

(** X4. [handleManualSync] never throws: whatever the network and the
    store do, its promise is not rejected, since what the fetch and the
    local store reject with is caught and turned into the sync status; and
    without a URL of a session it does nothing at all.  (On an array with
    an element that is no record, which the model leaves out, the bulk load
    never settles: there the function does not return, and does not throw
    either.) *)
Theorem handleManualSync_never_throws env w :
  (forall e, fst (handleManualSync getTime env w) <> Throws e) /\
  (JS.truthy_opt (syncUrl w) = false -> handleManualSync getTime env w = (Returns tt, w)).
Proof.
  split; [|apply handleManualSync_no_url].
  intros e.
  destruct (JS.truthy_opt (syncUrl w)) eqn:Hurl;
    [|now rewrite handleManualSync_no_url].
  destruct (syncUrl w) as [url|] eqn:Hsome; [simpl in Hurl|discriminate].
  unfold handleManualSync, setSyncStatus, setSyncError, setInterviews. run. simpl.
  rewrite Hsome, Hurl. simpl. rewrite getBinData_run. simpl.
  destruct (net env (fetchAllRequest url)) as [message|r]; simpl; [discriminate|].
  destruct (ok r); simpl; [|discriminate].
  destruct (body_json r); simpl; [discriminate|].
  split_replaceInterviewsDB; discriminate.
Qed.

(** [handleManualSync] when the array cannot be fetched. *)
Lemma handleManualSync_unreadable env w url :
  syncUrl w = Some url ->
  JS.truthy url = true ->
  unreadable (net env (fetchAllRequest url)) ->
  let run := handleManualSync getTime env w in
  syncStatus (snd run) = SyncStatus.error /\
  interviews (snd run) = interviews w /\
  store (snd run) = store w.
Proof.
  intros Hurl Htruthy Hfail.
  unfold handleManualSync, setSyncStatus, setSyncError, setInterviews. run. simpl.
  rewrite Hurl, Htruthy. simpl. rewrite getBinData_run. simpl.
  unfold tagged, logged, set_etag.
  destruct (net env (fetchAllRequest url)) as [message|r]; simpl in *.
  - repeat split.
  - destruct Hfail as [Hok | [message Hbody]].
    + rewrite Hok. simpl. repeat split.
    + rewrite Hbody. destruct (ok r); simpl;
        [destruct (JS.truthy_opt (header_ETag r))|]; simpl; repeat split.
Qed.

(** X5. When the array cannot be fetched (no answer, a status that is no
    success, a body that is no JSON), [handleManualSync] leaves the dataset
    in memory and the local store as they were, sets the sync status to
    [error] and the sync error to "Sincronizzazione manuale fallita: "
    followed by the message of the failure: the message the network failed
    with, "Impossibile recuperare i dati. (HTTP " with the status and ")",
    or the message of the syntax error. *)
Theorem handleManualSync_remote_failure env w url :
  syncUrl w = Some url ->
  JS.truthy url = true ->
  unreadable (net env (fetchAllRequest url)) ->
  let run := handleManualSync getTime env w in
  syncStatus (snd run) = SyncStatus.error /\
  (forall message,
     net env (fetchAllRequest url) = NetworkFailure message ->
     syncError (snd run) = Some ("Sincronizzazione manuale fallita: " +:+ message)) /\
  (forall r,
     net env (fetchAllRequest url) = Answer r -> ok r = false ->
     syncError (snd run)
     = Some ("Sincronizzazione manuale fallita: "
             +:+ "Impossibile recuperare i dati. (HTTP " +:+ pretty (status r) +:+ ")")) /\
  (forall r message,
     net env (fetchAllRequest url) = Answer r -> ok r = true ->
     body_json r = SyntaxError message ->
     syncError (snd run) = Some ("Sincronizzazione manuale fallita: " +:+ message)) /\
  interviews (snd run) = interviews w /\
  store (snd run) = store w.
Proof.
  intros Hurl Htruthy Hfail.
  destruct (handleManualSync_unreadable env w url Hurl Htruthy Hfail)
    as (Hstatus & Hdata & Hstore).
  split; [exact Hstatus|].
  split; [|split; [|split; [|split; [exact Hdata | exact Hstore]]]].
  - intros message Hnet.
    unfold handleManualSync, setSyncStatus, setSyncError, setInterviews. run. simpl.
    rewrite Hurl, Htruthy. simpl. rewrite getBinData_run. simpl.
    now rewrite Hnet.
  - intros r Hnet Hok.
    unfold handleManualSync, setSyncStatus, setSyncError, setInterviews. run. simpl.
    rewrite Hurl, Htruthy. simpl. rewrite getBinData_run. simpl.
    now rewrite Hnet, Hok.
  - intros r message Hnet Hok Hbody.
    unfold handleManualSync, setSyncStatus, setSyncError, setInterviews. run. simpl.
    rewrite Hurl, Htruthy. simpl. rewrite getBinData_run. simpl.
    now rewrite Hnet, Hok, Hbody.
Qed.

(** X6. The remote array wins: when the service answers with a success
    status and a JSON payload and the local overwrite goes through,
    [handleManualSync] leaves in memory the sorted array of the answer (the
    empty list when the payload is no array), in the local store exactly
    those records, the sync status [connected] and no sync error.  A record
    that was only in memory or in the local store is gone. *)
Theorem handleManualSync_remote_wins env w url r data :
  syncUrl w = Some url ->
  JS.truthy url = true ->
  net env (fetchAllRequest url) = Answer r ->
  ok r = true ->
  body_json r = Parsed data ->
  localWriteSucceeds env (sortInterviews getTime (arrayOrEmpty data)) ->
  let run := handleManualSync getTime env w in
  interviews (snd run) = sortInterviews getTime (arrayOrEmpty data) /\
  store (snd run) = storeOf (sortInterviews getTime (arrayOrEmpty data)) /\
  syncStatus (snd run) = SyncStatus.connected /\
  syncError (snd run) = None /\
  (forall x, x ∈ interviews (snd run) <-> x ∈ arrayOrEmpty data).
Proof.
  intros Hurl Htruthy Hnet Hok Hbody Hlocal.
  destruct (handleManualSync_answered env w url r data Hurl Htruthy Hnet Hok Hbody)
    as (_ & Hdata & _ & _ & _ & Hwritten & _).
  destruct (Hwritten Hlocal) as (Hstore & Hstatus & Herror).
  repeat split; try assumption.
  - intros Hx. simpl in Hx. rewrite Hdata in Hx.
    unfold sortInterviews in Hx. now rewrite <- Array_sort_Permutation in Hx.
  - intros Hx. simpl. rewrite Hdata.
    unfold sortInterviews. now rewrite <- Array_sort_Permutation.
Qed.

(** A payload that is JSON but no array empties the device: with a
    success status, such a payload and a working store, [handleManualSync]
    leaves the dataset in memory and the local store empty and reports
    [connected]. *)
Lemma handleManualSync_not_array_empties env w url r data :
  syncUrl w = Some url ->
  JS.truthy url = true ->
  net env (fetchAllRequest url) = Answer r ->
  ok r = true ->
  body_json r = Parsed data ->
  (forall records, data <> JArray records) ->
  idb_open env = true ->
  idb_clear env = true ->
  let run := handleManualSync getTime env w in
  interviews (snd run) = [] /\
  store (snd run) = ∅ /\
  syncStatus (snd run) = SyncStatus.connected.
Proof.
  intros Hurl Htruthy Hnet Hok Hbody Hshape Hopen Hclear.
  assert (Hempty : arrayOrEmpty data = []).
  { destruct data; try reflexivity. now contradiction (Hshape records). }
  destruct (handleManualSync_answered env w url r data Hurl Htruthy Hnet Hok Hbody)
    as (_ & Hdata & _ & _ & _ & Hwritten & _).
  rewrite Hempty in Hdata, Hwritten. simpl in Hdata, Hwritten.
  destruct Hwritten as (Hstore & Hstatus & _).
  { repeat split; try assumption; constructor. }
  repeat split; assumption.
Qed.

(** X7. When the array is fetched but the local overwrite is rejected (the
    store cannot be opened or cleared, or two records of the array share an
    [id]), [handleManualSync] has already put the sorted array in memory:
    the dataset in memory is the remote one, the local store is the old one,
    and the status is [error] with the message "Sincronizzazione manuale
    fallita: Errore sconosciuto". *)
Theorem handleManualSync_local_write_fails env w url r data :
  syncUrl w = Some url ->
  JS.truthy url = true ->
  net env (fetchAllRequest url) = Answer r ->
  ok r = true ->
  body_json r = Parsed data ->
  ~ localWriteSucceeds env (sortInterviews getTime (arrayOrEmpty data)) ->
  let run := handleManualSync getTime env w in
  interviews (snd run) = sortInterviews getTime (arrayOrEmpty data) /\
  store (snd run) = store w /\
  syncStatus (snd run) = SyncStatus.error /\
  syncError (snd run) = Some "Sincronizzazione manuale fallita: Errore sconosciuto".
Proof.
  intros Hurl Htruthy Hnet Hok Hbody Hlocal.
  destruct (handleManualSync_answered env w url r data Hurl Htruthy Hnet Hok Hbody)
    as (_ & Hdata & _ & _ & _ & _ & Hrejected).
  destruct (Hrejected Hlocal) as (Hstore & Hstatus & Herror).
  repeat split; assumption.
Qed.

End ManualSync.

Lemma handleManualSync_remote_failure_witness :
  let run := handleManualSync Sample.getTime Sample.serverError Sample.shared in
  syncStatus (snd run) = SyncStatus.error /\
  syncError (snd run)
  = Some "Sincronizzazione manuale fallita: Impossibile recuperare i dati. (HTTP 500)" /\
  interviews (snd run) = [Sample.first] /\
  store (snd run) = store Sample.shared.
Proof.
  destruct (handleManualSync_remote_failure Sample.getTime Sample.serverError
              Sample.shared Sample.binUrl eq_refl eq_refl (or_introl eq_refl))
    as (Hstatus & _ & Hrefused & _ & Hdata & Hstore).
  split; [exact Hstatus|].
  split; [exact (Hrefused _ eq_refl eq_refl)|].
  split; [exact Hdata | exact Hstore].
Defined.

Lemma handleManualSync_remote_wins_witness :
  let run := handleManualSync Sample.getTime (Sample.serving [Sample.second]) Sample.shared in
  interviews (snd run) = [Sample.second] /\
  store (snd run) = storeOf [Sample.second] /\
  ~ Sample.first ∈ interviews (snd run).
Proof.
  destruct (handleManualSync_remote_wins Sample.getTime (Sample.serving [Sample.second])
              Sample.shared Sample.binUrl _ (JArray [Sample.second])
              eq_refl eq_refl eq_refl eq_refl eq_refl)
    as (Hdata & Hstore & _ & _ & Hmembers).
  - repeat split; try reflexivity; [compute_done | repeat constructor].
  - split; [exact Hdata | split; [exact Hstore|]].
    intros Hin. apply Hmembers in Hin. simpl in Hin.
    apply list_elem_of_singleton in Hin. discriminate.
Defined.


Lemma handleManualSync_local_write_fails_witness :
  let run := handleManualSync Sample.getTime
               (Sample.serving [Sample.second; Sample.second]) Sample.shared in
  interviews (snd run) = [Sample.second; Sample.second] /\
  store (snd run) = store Sample.shared /\
  syncStatus (snd run) = SyncStatus.error.
Proof.
  destruct (handleManualSync_local_write_fails Sample.getTime
              (Sample.serving [Sample.second; Sample.second])
              Sample.shared Sample.binUrl _ (JArray [Sample.second; Sample.second])
              eq_refl eq_refl eq_refl eq_refl eq_refl)
    as (Hdata & Hstore & Hstatus & _).
  - intros (_ & _ & [Hnodup _]). simpl in Hnodup.
    apply NoDup_cons in Hnodup as [Hin _]. apply Hin. constructor.
  - split; [exact Hdata | split; [exact Hstore | exact Hstatus]].
Defined.

(** ** Joining and creating, when they go through *)

Lemma startsWith_truthy url : JS.startsWith url "https://kvdb.io/" = true -> JS.truthy url = true.
Proof. now destruct url. Qed.

Section Joining.
Variable getTime : string -> option Z.

Ltac join_steps Hurl :=
  unfold handleConnectSession; rewrite Hurl; simpl negb; cbv iota;
  unfold setSyncStatus, setSyncError, setIsLoading, setSyncUrl, setInterviews,
    setSessionMode, localStorage_setItem;
  run; simpl; rewrite getBinData_run; simpl.

(** [handleConnectSession] once the array has been fetched and the user,
    if asked, has agreed. *)
Lemma handleConnectSession_fetched env w url shouldConfirm r data :
  JS.startsWith url "https://kvdb.io/" = true ->
  net env (fetchAllRequest url) = Answer r ->
  ok r = true ->
  body_json r = Parsed data ->
  (shouldConfirm = true -> confirm env = true) ->
  let sorted := sortInterviews getTime (arrayOrEmpty data) in
  let run := handleConnectSession getTime url shouldConfirm env w in
  localStorage (snd run)
  = <["syncUrl" := url]> (<["sessionMode" := "online"]> (localStorage w)) /\
  syncUrl (snd run) = Some url /\
  interviews (snd run) = sorted /\
  isLoading (snd run) = false /\
  (localWriteSucceeds env sorted ->
   fst run = Returns tt /\
   store (snd run) = storeOf sorted /\
   sessionMode (snd run) = SessionMode.online /\
   syncStatus (snd run) = SyncStatus.connected /\
   syncError (snd run) = None) /\
  (~ localWriteSucceeds env sorted ->
   (exists reason, fst run = Throws (Reason reason)) /\
   store (snd run) = store w /\
   sessionMode (snd run) = sessionMode w /\
   syncStatus (snd run) = SyncStatus.error /\
   syncError (snd run) = Some "Errore sconosciuto").
Proof.
  intros Hurl Hnet Hok Hbody Hconfirm sorted.
  join_steps Hurl. rewrite Hnet, Hok, Hbody. simpl.
  unfold tagged, logged, set_etag, localWriteSucceeds. fold sorted.
  destruct shouldConfirm; simpl; run; simpl;
    try rewrite (Hconfirm eq_refl); simpl;
    destruct (JS.truthy_opt (header_ETag r)); simpl;
    split_replaceInterviewsDB; simpl;
    repeat split; try reflexivity; try tauto; eauto; exfalso; intuition congruence.
Qed.

(** X8. A join that goes through: for a URL of the service, an answer
    with a success status and a JSON payload, a user who agrees when asked,
    and a local overwrite that succeeds, [handleConnectSession] returns
    with the association persisted, the session online on that URL, the
    sorted array of the answer in memory and in the local store, the status
    [connected] and no error; the session then counts as shared for the
    operations that mirror their writes. *)
Theorem handleConnectSession_connects env w url shouldConfirm r data :
  JS.startsWith url "https://kvdb.io/" = true ->
  net env (fetchAllRequest url) = Answer r ->
  ok r = true ->
  body_json r = Parsed data ->
  (shouldConfirm = true -> confirm env = true) ->
  localWriteSucceeds env (sortInterviews getTime (arrayOrEmpty data)) ->
  let run := handleConnectSession getTime url shouldConfirm env w in
  fst run = Returns tt /\
  localStorage (snd run) !! "sessionMode" = Some "online" /\
  localStorage (snd run) !! "syncUrl" = Some url /\
  sharedUrl (snd run) = Some url /\
  interviews (snd run) = sortInterviews getTime (arrayOrEmpty data) /\
  store (snd run) = storeOf (sortInterviews getTime (arrayOrEmpty data)) /\
  syncStatus (snd run) = SyncStatus.connected /\
  syncError (snd run) = None /\
  isLoading (snd run) = false.
Proof.
  intros Hurl Hnet Hok Hbody Hconfirm Hlocal.
  destruct (handleConnectSession_fetched env w url shouldConfirm r data
              Hurl Hnet Hok Hbody Hconfirm)
    as (Hpersisted & Hsync & Hdata & Hloading & Hwritten & _).
  destruct (Hwritten Hlocal) as (Hreturns & Hstore & Hmode & Hstatus & Herror).
  repeat split; try assumption.
  - simpl. rewrite Hpersisted. now rewrite lookup_insert_ne, lookup_insert_eq.
  - simpl. rewrite Hpersisted. apply lookup_insert_eq.
  - unfold sharedUrl. simpl. rewrite Hmode, Hsync.
    now rewrite (startsWith_truthy url Hurl).
Qed.

(** [handleConnectSession] when the array cannot be fetched. *)
Lemma handleConnectSession_unreadable env w url shouldConfirm :
  JS.startsWith url "https://kvdb.io/" = true ->
  unreadable (net env (fetchAllRequest url)) ->
  let run := handleConnectSession getTime url shouldConfirm env w in
  (exists message,
     fst run = Throws (Error message) /\
     syncError (snd run)
     = Some ("URL non valido o sessione non trovata. " +:+ message)) /\
  syncStatus (snd run) = SyncStatus.error /\
  localStorage (snd run) = localStorage w /\
  sessionMode (snd run) = sessionMode w /\
  syncUrl (snd run) = syncUrl w /\
  interviews (snd run) = interviews w /\
  store (snd run) = store w /\
  isLoading (snd run) = false.
Proof.
  intros Hurl Hfail. join_steps Hurl.
  unfold tagged, logged, set_etag.
  destruct (net env (fetchAllRequest url)) as [message|r]; simpl in *.
  - repeat split; eauto.
  - destruct Hfail as [Hok | [message Hbody]].
    + rewrite Hok. simpl. repeat split; eauto.
    + rewrite Hbody. destruct (ok r); simpl;
        [destruct (JS.truthy_opt (header_ETag r))|]; simpl; repeat split; eauto.
Qed.

(** X9. A join whose fetch fails: for a URL of the service whose array
    cannot be fetched, [handleConnectSession] throws the error of the fetch
    again, after setting the status to [error] and the sync error to "URL
    non valido o sessione non trovata. " followed by the message; nothing
    is persisted, the session, the dataset in memory and the local store
    are what they were, and the loading flag is down. *)
Theorem handleConnectSession_fetch_failure env w url shouldConfirm :
  JS.startsWith url "https://kvdb.io/" = true ->
  unreadable (net env (fetchAllRequest url)) ->
  let run := handleConnectSession getTime url shouldConfirm env w in
  (exists message,
     fst run = Throws (Error message) /\
     syncError (snd run)
     = Some ("URL non valido o sessione non trovata. " +:+ message)) /\
  syncStatus (snd run) = SyncStatus.error /\
  localStorage (snd run) = localStorage w /\
  sessionMode (snd run) = sessionMode w /\
  syncUrl (snd run) = syncUrl w /\
  interviews (snd run) = interviews w /\
  store (snd run) = store w /\
  isLoading (snd run) = false.
Proof. intros Hurl Hfail. now apply (handleConnectSession_unreadable env w url shouldConfirm). Qed.

(** X10. A join that stops half way: when the array is fetched and the
    user agrees but the local overwrite is rejected, [handleConnectSession]
    throws the reason of the store, with the status [error]; by then the
    association has been persisted, the URL of the session set and the
    dataset in memory replaced by the remote one, while the session mode and
    the local store are still the old ones. *)
Theorem handleConnectSession_local_write_fails env w url shouldConfirm r data :
  JS.startsWith url "https://kvdb.io/" = true ->
  net env (fetchAllRequest url) = Answer r ->
  ok r = true ->
  body_json r = Parsed data ->
  (shouldConfirm = true -> confirm env = true) ->
  ~ localWriteSucceeds env (sortInterviews getTime (arrayOrEmpty data)) ->
  let run := handleConnectSession getTime url shouldConfirm env w in
  (exists reason, fst run = Throws (Reason reason)) /\
  localStorage (snd run) !! "sessionMode" = Some "online" /\
  localStorage (snd run) !! "syncUrl" = Some url /\
  syncUrl (snd run) = Some url /\
  interviews (snd run) = sortInterviews getTime (arrayOrEmpty data) /\
  sessionMode (snd run) = sessionMode w /\
  store (snd run) = store w /\
  syncStatus (snd run) = SyncStatus.error.
Proof.
  intros Hurl Hnet Hok Hbody Hconfirm Hlocal.
  destruct (handleConnectSession_fetched env w url shouldConfirm r data
              Hurl Hnet Hok Hbody Hconfirm)
    as (Hpersisted & Hsync & Hdata & _ & _ & Hrejected).
  destruct (Hrejected Hlocal) as (Hthrown & Hstore & Hmode & Hstatus & _).
  repeat split; try assumption.
  - simpl. rewrite Hpersisted. now rewrite lookup_insert_ne, lookup_insert_eq.
  - simpl. rewrite Hpersisted. apply lookup_insert_eq.
Qed.

End Joining.

Lemma handleConnectSession_connects_witness :
  let run := handleConnectSession Sample.getTime Sample.binUrl true
               (Sample.serving [Sample.first; Sample.second]) Sample.welcome in
  fst run = Returns tt /\
  sharedUrl (snd run) = Some Sample.binUrl /\
  interviews (snd run) = [Sample.second; Sample.first].
Proof.
  destruct (handleConnectSession_connects Sample.getTime
              (Sample.serving [Sample.first; Sample.second]) Sample.welcome
              Sample.binUrl true _ (JArray [Sample.first; Sample.second])
              eq_refl eq_refl eq_refl eq_refl (fun _ => eq_refl))
    as (Hreturns & _ & _ & Hshared & Hdata & _).
  - repeat split; try reflexivity; [compute_done | repeat constructor].
  - split; [exact Hreturns | split; [exact Hshared | exact Hdata]].
Defined.

Lemma handleConnectSession_fetch_failure_witness :
  let run := handleConnectSession Sample.getTime Sample.binUrl false
               Sample.offline Sample.welcome in
  fst run = Throws (Error "Failed to fetch") /\
  syncStatus (snd run) = SyncStatus.error /\
  localStorage (snd run) = ∅.
Proof.
  destruct (handleConnectSession_fetch_failure Sample.getTime Sample.offline
              Sample.welcome Sample.binUrl false eq_refl I)
    as (_ & Hstatus & Hpersisted & _).
  split; [reflexivity | split; [exact Hstatus | exact Hpersisted]].
Defined.

Lemma handleConnectSession_local_write_fails_witness :
  let run := handleConnectSession Sample.getTime Sample.binUrl false
               (Sample.serving [Sample.second; Sample.second]) Sample.welcome in
  localStorage (snd run) !! "syncUrl" = Some Sample.binUrl /\
  sessionMode (snd run) = SessionMode.welcome /\
  store (snd run) = ∅.
Proof.
  destruct (handleConnectSession_local_write_fails Sample.getTime
              (Sample.serving [Sample.second; Sample.second]) Sample.welcome
              Sample.binUrl false _ (JArray [Sample.second; Sample.second])
              eq_refl eq_refl eq_refl eq_refl (fun H => False_ind _ (diff_false_true H)))
    as (_ & _ & Hpersisted & _ & _ & Hmode & Hstore & _).
  - intros (_ & _ & [Hnodup _]). simpl in Hnodup.
    apply NoDup_cons in Hnodup as [Hin _]. apply Hin. constructor.
  - split; [exact Hpersisted | split; [exact Hmode | exact Hstore]].
Defined.

(** ** Creating a session *)

(** [handleCreateSession], case by case. *)
Lemma handleCreateSession_cases env w :
  let request := overwriteRequest KVDB_NEW_BIN_URL (interviews w) in
  let run := handleCreateSession env w in
  traffic (snd run) = (traffic w ++ [(request, net env request)])%list /\
  interviews (snd run) = interviews w /\
  store (snd run) = store w /\
  isLoading (snd run) = false /\
  (forall r, net env request = Answer r -> ok r = true ->
     fst run = Returns tt /\
     syncUrl (snd run) = Some (body_text r) /\
     localStorage (snd run)
     = <["syncUrl" := body_text r]> (<["sessionMode" := "online"]> (localStorage w)) /\
     sessionMode (snd run) = SessionMode.online /\
     syncStatus (snd run) = SyncStatus.connected /\
     syncError (snd run) = None) /\
  (failed (net env request) ->
     (exists message,
        fst run = Throws (Error message) /\ syncError (snd run) = Some message) /\
     syncStatus (snd run) = SyncStatus.error /\
     localStorage (snd run) = localStorage w /\
     sessionMode (snd run) = sessionMode w /\
     syncUrl (snd run) = syncUrl w).
Proof.
  unfold handleCreateSession, recordEtag, setSyncStatus, setSyncError, setIsLoading,
    setSyncUrl, setSessionMode, setEtag, localStorage_setItem.
  run. simpl. fold (overwriteRequest KVDB_NEW_BIN_URL (interviews w)).
  destruct (net env (overwriteRequest KVDB_NEW_BIN_URL (interviews w)))
    as [message|r]; simpl.
  - repeat split; try reflexivity; try discriminate; eauto.
  - destruct (ok r) eqn:Hok; simpl;
      [destruct (JS.truthy_opt (header_ETag r))|]; simpl;
      repeat split; try reflexivity; try discriminate; try congruence; eauto;
      intros; simplify_eq; try reflexivity; try congruence.
Qed.

(** X11. [handleCreateSession] posts the dataset in memory to the creation
    endpoint.  When the answer has a success status, the text of the answer
    becomes the URL of the session, in memory and persisted, the session is
    online and [connected]; when the request fails, the error is thrown
    again with the status [error] and its message as the sync error, and
    neither the persisted association nor the session changes.  Either way
    the dataset in memory and the local store are left alone, and the
    loading flag is down. *)
Theorem handleCreateSession_outcome env w :
  let request := overwriteRequest KVDB_NEW_BIN_URL (interviews w) in
  let run := handleCreateSession env w in
  traffic (snd run) = (traffic w ++ [(request, net env request)])%list /\
  interviews (snd run) = interviews w /\
  store (snd run) = store w /\
  isLoading (snd run) = false /\
  (forall r, net env request = Answer r -> ok r = true ->
     fst run = Returns tt /\
     syncUrl (snd run) = Some (body_text r) /\
     localStorage (snd run)
     = <["syncUrl" := body_text r]> (<["sessionMode" := "online"]> (localStorage w)) /\
     sessionMode (snd run) = SessionMode.online /\
     syncStatus (snd run) = SyncStatus.connected /\
     syncError (snd run) = None) /\
  (failed (net env request) ->
     (exists message,
        fst run = Throws (Error message) /\ syncError (snd run) = Some message) /\
     syncStatus (snd run) = SyncStatus.error /\
     localStorage (snd run) = localStorage w /\
     sessionMode (snd run) = sessionMode w /\
     syncUrl (snd run) = syncUrl w).
Proof. apply handleCreateSession_cases. Qed.

(** ** Adding a record, the other paths *)

Section Adding.
Variable getTime : string -> option Z.

Ltac add_steps :=
  unfold addInterview, addInterviewDB, recordEtag, store_add,
    setInterviews, setSyncStatus, setSyncError, setEtag;
  run; simpl.

(** X12. In a session that is not shared [addInterview] sends nothing and
    touches neither the sync status nor the sync error; the dataset in
    memory becomes the sorted dataset with the record in it.  When the local
    store takes the record it returns, and the record is in the store; when
    the store refuses it throws the reason of the store, and the record
    stays in memory all the same. *)
Theorem addInterview_local (r : InterviewData) env w :
  sharedUrl w = None ->
  let run := addInterview getTime r env w in
  traffic (snd run) = traffic w /\
  syncStatus (snd run) = syncStatus w /\
  syncError (snd run) = syncError w /\
  interviews (snd run) = sortInterviews getTime (interviews w ++ [r]) /\
  (idb_open env = true /\ idb_add env r = true /\ store w !! id r = None ->
   fst run = Returns tt /\ store (snd run) = <[id r := r]> (store w)) /\
  (~ (idb_open env = true /\ idb_add env r = true /\ store w !! id r = None) ->
   (exists reason, fst run = Throws (Reason reason)) /\ store (snd run) = store w).
Proof.
  intros Hlocal. add_steps.
  replace (sharedUrl _) with (@None string) by (rewrite <- Hlocal; reflexivity).
  simpl.
  destruct (idb_open env) eqn:Hopen; simpl;
    destruct (store w !! id r) eqn:Hfree; simpl;
    destruct (idb_add env r) eqn:Hadd; simpl;
    repeat split; try reflexivity; eauto; intuition congruence.
Qed.

(** X13. In a shared session, when the PATCH is answered with a success
    status and the local store takes the record, [addInterview] returns
    with the record in the store, the status [connected], the entity tag of
    the answer recorded if it carries one, and exactly one request sent: the
    PATCH that appends the record. *)
Theorem addInterview_shared_success (r : InterviewData) env w url answer :
  sharedUrl w = Some url ->
  net env (appendRequest url r) = Answer answer ->
  ok answer = true ->
  idb_open env = true ->
  idb_add env r = true ->
  store w !! id r = None ->
  let run := addInterview getTime r env w in
  fst run = Returns tt /\
  store (snd run) = <[id r := r]> (store w) /\
  interviews (snd run) = sortInterviews getTime (interviews w ++ [r]) /\
  syncStatus (snd run) = SyncStatus.connected /\
  etag (snd run)
  = (if JS.truthy_opt (header_ETag answer) then header_ETag answer else etag w) /\
  traffic (snd run) = (traffic w ++ [(appendRequest url r, Answer answer)])%list.
Proof.
  intros Hshared Hnet Hok Hopen Hadd Hfree. add_steps.
  replace (sharedUrl _) with (Some url) by (rewrite <- Hshared; reflexivity).
  simpl. fold (appendRequest url r). rewrite Hnet. simpl. rewrite Hok. simpl.
  rewrite Hopen. simpl. rewrite Hfree, Hadd. simpl.
  destruct (JS.truthy_opt (header_ETag answer)); simpl; repeat split; reflexivity.
Qed.

(** X14. In a shared session, when the PATCH is answered with a success
    status but the local store refuses the record (its [id] is taken, or the
    store cannot be opened or written), [addInterview] throws the reason of
    the store: the service has appended the record, the local store has not,
    the status is [error], and the sync error names no cause: it starts
    with "Sincronizzazione fallita: Errore sconosciuto", since what the
    store rejects with is no [Error]. *)
Theorem addInterview_shared_local_add_fails (r : InterviewData) env w url answer :
  sharedUrl w = Some url ->
  net env (appendRequest url r) = Answer answer ->
  ok answer = true ->
  ~ (idb_open env = true /\ idb_add env r = true /\ store w !! id r = None) ->
  let run := addInterview getTime r env w in
  (exists reason, fst run = Throws (Reason reason)) /\
  store (snd run) = store w /\
  traffic (snd run) = (traffic w ++ [(appendRequest url r, Answer answer)])%list /\
  interviews (snd run) = sortInterviews getTime (interviews w ++ [r]) /\
  syncStatus (snd run) = SyncStatus.error /\
  (exists rest,
     syncError (snd run)
     = Some ("Sincronizzazione fallita: Errore sconosciuto" +:+ rest)).
Proof.
  intros Hshared Hnet Hok Hlocal. add_steps.
  replace (sharedUrl _) with (Some url) by (rewrite <- Hshared; reflexivity).
  simpl. fold (appendRequest url r). rewrite Hnet. simpl. rewrite Hok. simpl.
  destruct (idb_open env) eqn:Hopen; simpl;
    destruct (store w !! id r) eqn:Hfree; simpl;
    destruct (idb_add env r) eqn:Hadd; simpl;
    try (exfalso; apply Hlocal; repeat split; congruence);
    repeat (simpl; rewrite ?Hopen, ?Hfree, ?Hadd);
    repeat split; eauto.
Qed.

End Adding.

Lemma addInterview_shared_success_witness :
  let run := addInterview Sample.getTime Sample.second (Sample.serving []) Sample.shared in
  fst run = Returns tt /\
  store (snd run) !! "b" = Some Sample.second /\
  etag (snd run) = Some "v2".
Proof.
  destruct (addInterview_shared_success Sample.getTime Sample.second (Sample.serving [])
              Sample.shared Sample.binUrl _ eq_refl eq_refl eq_refl eq_refl eq_refl eq_refl)
    as (Hreturns & Hstore & _ & _ & Htag & _).
  split; [exact Hreturns | split; [|exact Htag]].
  simpl. rewrite Hstore. apply lookup_insert_eq.
Defined.

Lemma addInterview_shared_local_add_fails_witness :
  let run := addInterview Sample.getTime Sample.firstAgain (Sample.serving []) Sample.shared in
  store (snd run) !! "a" = Some Sample.first /\
  syncStatus (snd run) = SyncStatus.error.
Proof.
  destruct (addInterview_shared_local_add_fails Sample.getTime Sample.firstAgain
              (Sample.serving []) Sample.shared Sample.binUrl _ eq_refl eq_refl eq_refl)
    as (_ & Hstore & _ & _ & Hstatus & _).
  - intros (_ & _ & Hfree). discriminate.
  - split; [|exact Hstatus]. simpl. now rewrite Hstore.
Defined.

(** A session on this device only, with one record. *)
Lemma addInterview_local_witness :
  let w := snd (handleDisconnect Sample.offline Sample.shared) in
  let run := addInterview Sample.getTime Sample.second Sample.offline w in
  sharedUrl w = None /\
  traffic (snd run) = [] /\
  fst run = Returns tt.
Proof.
  assert (Hlocal : sharedUrl (snd (handleDisconnect Sample.offline Sample.shared)) = None)
    by reflexivity.
  destruct (addInterview_local Sample.getTime Sample.second Sample.offline _ Hlocal)
    as (Htraffic & _ & _ & _ & Hstored & _).
  split; [exact Hlocal | split; [exact Htraffic|]].
  now destruct Hstored as [Hreturns _].
Defined.

(** ** The dataset in memory stays sorted *)

Section Sortedness.
Variable getTime : string -> option Z.

Lemma addInterview_interviews (r : InterviewData) env w :
  interviews (snd (addInterview getTime r env w))
  = sortInterviews getTime (interviews w ++ [r]).
Proof.
  unfold addInterview, addInterviewDB, recordEtag, store_add,
    setInterviews, setSyncStatus, setSyncError, setEtag.
  run. simpl. crunch.
Qed.

Lemma replaceInterviews_interviews records env w :
  interviews (snd (replaceInterviews getTime records env w)) = interviews w \/
  interviews (snd (replaceInterviews getTime records env w))
  = sortInterviews getTime records.
Proof.
  unfold replaceInterviews, recordEtag, setInterviews, setEtag. run. simpl.
  destruct (sharedUrl w) as [url|]; simpl.
  - destruct (net env _) as [message|r]; simpl; [now left|].
    destruct (JS.truthy_opt (header_ETag r)); simpl;
      split_replaceInterviewsDB; simpl; auto.
  - split_replaceInterviewsDB; simpl; auto.
Qed.

Lemma clearInterviews_interviews env w :
  interviews (snd (clearInterviews env w)) = interviews w \/
  interviews (snd (clearInterviews env w)) = [].
Proof.
  unfold clearInterviews, clearAllInterviewsDB, setInterviews. run. simpl.
  destruct (sharedUrl w) as [url|]; simpl; crunch; auto.
Qed.

Lemma handleManualSync_interviews env w :
  interviews (snd (handleManualSync getTime env w)) = interviews w \/
  exists url r data,
    syncUrl w = Some url /\
    net env (fetchAllRequest url) = Answer r /\
    body_json r = Parsed data /\
    interviews (snd (handleManualSync getTime env w))
    = sortInterviews getTime (arrayOrEmpty data).
Proof.
  destruct (JS.truthy_opt (syncUrl w)) eqn:Htruthy;
    [|left; now rewrite handleManualSync_no_url].
  destruct (syncUrl w) as [url|] eqn:Hurl; [simpl in Htruthy|discriminate].
  destruct (net env (fetchAllRequest url)) as [message|r] eqn:Hnet.
  - left. now apply (handleManualSync_unreadable getTime env w url Hurl Htruthy);
      rewrite Hnet.
  - destruct (ok r) eqn:Hok.
    + destruct (body_json r) as [message|data] eqn:Hbody.
      * left. apply (handleManualSync_unreadable getTime env w url Hurl Htruthy).
        rewrite Hnet. right. eauto.
      * right. exists url, r, data. repeat split; try assumption.
        now apply (handleManualSync_answered getTime env w url r data).
    + left. apply (handleManualSync_unreadable getTime env w url Hurl Htruthy).
      rewrite Hnet. now left.
Qed.

(** X15. The dataset in memory stays ordered by date, newest first: if
    it is so before, it is so after [addInterview], [replaceInterviews],
    [clearInterviews] and [handleManualSync], whatever the network and the
    store do, provided the dates of the records that come in parse. *)
Theorem dataset_stays_sorted env w :
  StronglySorted (newerOrEqual getTime) (interviews w) ->
  (forall r, datesValid getTime (interviews w ++ [r]) ->
     StronglySorted (newerOrEqual getTime)
       (interviews (snd (addInterview getTime r env w)))) /\
  (forall records, datesValid getTime records ->
     StronglySorted (newerOrEqual getTime)
       (interviews (snd (replaceInterviews getTime records env w)))) /\
  StronglySorted (newerOrEqual getTime) (interviews (snd (clearInterviews env w))) /\
  ((forall url r data,
      syncUrl w = Some url -> net env (fetchAllRequest url) = Answer r ->
      body_json r = Parsed data -> datesValid getTime (arrayOrEmpty data)) ->
   StronglySorted (newerOrEqual getTime)
     (interviews (snd (handleManualSync getTime env w)))).
Proof.
  intros Hsorted. repeat split.
  - intros r Hvalid. rewrite addInterview_interviews.
    now apply sortInterviews_sorted.
  - intros records Hvalid.
    destruct (replaceInterviews_interviews records env w) as [-> | ->];
      [assumption | now apply sortInterviews_sorted].
  - destruct (clearInterviews_interviews env w) as [-> | ->];
      [assumption | constructor].
  - intros Hvalid.
    destruct (handleManualSync_interviews env w)
      as [-> | (url & r & data & Hurl & Hnet & Hbody & ->)]; [assumption|].
    apply sortInterviews_sorted. now apply (Hvalid url r data).
Qed.

End Sortedness.

Lemma dataset_stays_sorted_witness :
  StronglySorted (newerOrEqual Sample.getTime)
    (interviews (snd (addInterview Sample.getTime Sample.second
                        Sample.offline Sample.shared))).
Proof.
  assert (Hsorted : StronglySorted (newerOrEqual Sample.getTime)
                      (interviews Sample.shared))
    by (repeat constructor).
  destruct (dataset_stays_sorted Sample.getTime Sample.offline Sample.shared Hsorted)
    as (Hadd & _).
  apply Hadd. repeat constructor; vm_compute; eauto.
Defined.

(** ** A session on this device *)

Lemma getAllInterviewsDB_run readable env w :
  getAllInterviewsDB readable env w =
  if idb_open env then
    if readable then (Returns (store_getAll (store w)), w)
    else (Throws (Reason "Could not fetch interviews from the database."), w)
  else (Throws (Reason "Error opening database"), w).
Proof.
  unfold getAllInterviewsDB. run. simpl.
  destruct (idb_open env); simpl; [|reflexivity].
  destruct readable; [|reflexivity]. now rewrite set_store_same.
Qed.

Lemma store_getAll_Permutation st : store_getAll st ≡ₚ storedRecords st.
Proof. unfold store_getAll, storedRecords. now rewrite merge_sort_Permutation. Qed.

Lemma storedRecords_storeOf records :
  NoDup (id <$> records) -> storedRecords (storeOf records) ≡ₚ records.
Proof.
  intros Hnodup. unfold storedRecords, storeOf.
  rewrite map_to_list_to_map.
  - rewrite <- list_fmap_compose. simpl. now rewrite list_fmap_id.
  - now rewrite <- list_fmap_compose.
Qed.

Section LocalSession.
Variable getTime : string -> option Z.

(** [handleStartLocalSession], step by step. *)
Lemma handleStartLocalSession_run readable env w :
  let run := handleStartLocalSession getTime readable env w in
  traffic (snd run) = traffic w /\
  store (snd run) = store w /\
  syncStatus (snd run) = syncStatus w /\
  syncError (snd run) = syncError w /\
  etag (snd run) = etag w /\
  (idb_open env = true /\ readable = true ->
   fst run = Returns tt /\
   interviews (snd run) = sortInterviews getTime (store_getAll (store w)) /\
   sessionMode (snd run) = SessionMode.local /\
   syncUrl (snd run) = None /\
   localStorage (snd run)
   = delete "syncUrl" (<["sessionMode" := "local"]> (localStorage w)) /\
   isLoading (snd run) = false) /\
  (~ (idb_open env = true /\ readable = true) ->
   (exists reason, fst run = Throws (Reason reason)) /\
   interviews (snd run) = interviews w /\
   sessionMode (snd run) = sessionMode w /\
   syncUrl (snd run) = syncUrl w /\
   localStorage (snd run) = localStorage w /\
   isLoading (snd run) = true).
Proof.
  unfold handleStartLocalSession, setIsLoading, setInterviews, setSessionMode,
    setSyncUrl, localStorage_setItem, localStorage_removeItem.
  run. simpl. rewrite getAllInterviewsDB_run. simpl.
  destruct (idb_open env); simpl; [destruct readable; simpl|];
    repeat split; try reflexivity; eauto; intuition congruence.
Qed.

(** X16. [handleStartLocalSession] sends nothing and leaves the local
    store, the sync status, the sync error and the freshness token alone.
    When the store can be read, it returns with the records of the store in
    memory, each once and sorted by date, the session local, no URL of a
    session, and the persisted mode "local" with the persisted URL removed.
    When the store cannot be opened or read, it throws the reason of the
    store with the loading flag still up and nothing else changed. *)
Theorem handleStartLocalSession_outcome readable env w :
  let run := handleStartLocalSession getTime readable env w in
  traffic (snd run) = traffic w /\
  store (snd run) = store w /\
  syncStatus (snd run) = syncStatus w /\
  syncError (snd run) = syncError w /\
  etag (snd run) = etag w /\
  (idb_open env = true /\ readable = true ->
   fst run = Returns tt /\
   interviews (snd run) ≡ₚ storedRecords (store w) /\
   (datesValid getTime (storedRecords (store w)) ->
    StronglySorted (newerOrEqual getTime) (interviews (snd run))) /\
   sessionMode (snd run) = SessionMode.local /\
   syncUrl (snd run) = None /\
   localStorage (snd run) !! "sessionMode" = Some "local" /\
   localStorage (snd run) !! "syncUrl" = None /\
   isLoading (snd run) = false) /\
  (~ (idb_open env = true /\ readable = true) ->
   (exists reason, fst run = Throws (Reason reason)) /\
   interviews (snd run) = interviews w /\
   sessionMode (snd run) = sessionMode w /\
   localStorage (snd run) = localStorage w /\
   isLoading (snd run) = true).
Proof.
  destruct (handleStartLocalSession_run readable env w)
    as (Htraffic & Hstore & Hstatus & Herror & Htag & Hread & Hfail).
  do 5 (split; [assumption|]). split.
  - intros Hok.
    destruct (Hread Hok) as (Hreturns & Hdata & Hmode & Hurl & Hsaved & Hloading).
    simpl in *. rewrite Hdata, Hsaved.
    repeat split; try assumption.
    + unfold sortInterviews. rewrite <- Array_sort_Permutation.
      apply store_getAll_Permutation.
    + intros Hvalid. apply sortInterviews_sorted. unfold datesValid.
      now rewrite store_getAll_Permutation.
    + now rewrite lookup_delete_ne, lookup_insert_eq.
    + apply lookup_delete_eq.
  - intros Hbad.
    destruct (Hfail Hbad) as (Hthrows & Hdata & Hmode & _ & Hsaved & Hloading).
    repeat split; assumption.
Qed.

End LocalSession.

Lemma handleStartLocalSession_outcome_witness :
  let run := handleStartLocalSession Sample.getTime true Sample.offline Sample.shared in
  fst run = Returns tt /\
  sessionMode (snd run) = SessionMode.local /\
  localStorage (snd run) !! "syncUrl" = None.
Proof.
  destruct (handleStartLocalSession_outcome Sample.getTime true Sample.offline Sample.shared)
    as (_ & _ & _ & _ & _ & Hread & _).
  destruct (Hread (conj eq_refl eq_refl))
    as (Hreturns & _ & _ & Hmode & _ & _ & Hurl & _).
  split; [exact Hreturns | split; [exact Hmode | exact Hurl]].
Defined.

(** ** Start-up *)

Section StartUp.
Variable getTime : string -> option Z.

(** [handleConnectSession] on a URL that is not one of the service. *)
Lemma handleConnectSession_rejects_url env w url shouldConfirm :
  JS.startsWith url "https://kvdb.io/" = false ->
  handleConnectSession getTime url shouldConfirm env w
  = (Throws (Error "URL non valido."),
     snd (setSyncError
            (Some "URL non valido. Assicurati che inizi con 'https://kvdb.io/'.") env w)).
Proof. intros Hurl. unfold handleConnectSession. now rewrite Hurl. Qed.

(** The start-up when a shared session was saved. *)
Lemma loadInitialData_online readable env w url :
  localStorage w !! "sessionMode" = Some "online" ->
  localStorage w !! "syncUrl" = Some url ->
  JS.truthy url = true ->
  loadInitialData getTime readable env w =
  match handleConnectSession getTime url false env (snd (setIsLoading true env w)) with
  | (Returns _, w1) => (Returns tt, snd (setIsLoading false env w1))
  | (Throws _, w1) =>
      match handleStartLocalSession getTime readable env w1 with
      | (Returns _, w2) =>
          (Returns tt,
           snd (setIsLoading false env
                  (snd (setSyncError
                          (Some "Impossibile connettersi alla sessione cloud. Caricamento dati locali.")
                          env w2))))
      | (Throws e, w2) => (Throws e, w2)
      end
  end.
Proof.
  intros Hmode Hurl Htruthy. unfold loadInitialData, localStorage_getItem.
  run. simpl. rewrite Hmode, Hurl, Htruthy. simpl.
  destruct (handleConnectSession getTime url false env _) as [[|e] w1]; simpl;
    [reflexivity|].
  destruct (handleStartLocalSession getTime readable env w1) as [[|e'] w2];
    reflexivity.
Qed.

(** X17. The fallback of the start-up: when a shared session was saved
    but its URL is not one of the service or its array cannot be fetched,
    and the local store can be read, [loadInitialData] returns with a local
    session on the records of the local store, the sync error
    "Impossibile connettersi alla sessione cloud. Caricamento dati locali.",
    and the saved association replaced by the mode "local": the next
    start-up will not try the shared session again. *)
Theorem loadInitialData_falls_back readable env w url :
  localStorage w !! "sessionMode" = Some "online" ->
  localStorage w !! "syncUrl" = Some url ->
  JS.truthy url = true ->
  JS.startsWith url "https://kvdb.io/" = false
  \/ JS.startsWith url "https://kvdb.io/" = true
     /\ unreadable (net env (fetchAllRequest url)) ->
  idb_open env = true ->
  readable = true ->
  let run := loadInitialData getTime readable env w in
  fst run = Returns tt /\
  sessionMode (snd run) = SessionMode.local /\
  syncUrl (snd run) = None /\
  interviews (snd run) ≡ₚ storedRecords (store w) /\
  store (snd run) = store w /\
  localStorage (snd run) !! "sessionMode" = Some "local" /\
  localStorage (snd run) !! "syncUrl" = None /\
  syncError (snd run)
  = Some "Impossibile connettersi alla sessione cloud. Caricamento dati locali." /\
  isLoading (snd run) = false.
Proof.
  intros Hmode Hurl Htruthy Hfail Hopen Hread.
  simpl. rewrite (loadInitialData_online readable env w url Hmode Hurl Htruthy).
  assert (Hthrown : exists e w1,
    handleConnectSession getTime url false env (snd (setIsLoading true env w))
    = (Throws e, w1) /\ store w1 = store w).
  { destruct Hfail as [Hbad | [Hgood Hunreadable]].
    - rewrite (handleConnectSession_rejects_url env _ url false Hbad). eauto.
    - destruct (handleConnectSession_unreadable getTime env
                  (snd (setIsLoading true env w)) url false Hgood Hunreadable)
        as ((message & Hthrows & _) & _ & _ & _ & _ & _ & Hstore & _).
      destruct (handleConnectSession getTime url false env _) as [result w1].
      simpl in *. subst result. eauto. }
  destruct Hthrown as (e & w1 & -> & Hstore1).
  destruct (handleStartLocalSession_run getTime readable env w1)
    as (_ & Hstore & _ & _ & _ & Hstarted & _).
  destruct (Hstarted (conj Hopen Hread))
    as (Hreturns & Hdata & Hlocal & Hnone & Hpersisted & _).
  destruct (handleStartLocalSession getTime readable env w1) as [result w2].
  simpl in *. subst result. simpl.
  repeat split; try assumption.
  - rewrite Hdata, Hstore1. unfold sortInterviews.
    rewrite <- Array_sort_Permutation. apply store_getAll_Permutation.
  - congruence.
  - rewrite Hpersisted. now rewrite lookup_delete_ne, lookup_insert_eq.
  - rewrite Hpersisted. apply lookup_delete_eq.
Qed.

(** The start-up when the mode "local" was saved. *)
Lemma loadInitialData_local readable env w :
  localStorage w !! "sessionMode" = Some "local" ->
  loadInitialData getTime readable env w =
  match handleStartLocalSession getTime readable env (snd (setIsLoading true env w)) with
  | (Returns _, w1) => (Returns tt, snd (setIsLoading false env w1))
  | (Throws e, w1) => (Throws e, w1)
  end.
Proof.
  intros Hmode. unfold loadInitialData, localStorage_getItem. run. simpl. rewrite Hmode.
  destruct (localStorage w !! "syncUrl"); simpl;
    destruct (handleStartLocalSession getTime readable env _) as [[|e] w1];
    reflexivity.
Qed.

(** X18. The other start-ups.  When the mode "local" was saved,
    [loadInitialData] sends nothing and leaves the local store alone; if the
    store can be read it returns with a local session on the records of the
    store and the loading flag down; if the store cannot be opened or read
    it throws the reason of the store and the loading flag stays up.  When
    no mode was saved, or a mode other than "local" that is not "online"
    with a URL, it shows the welcome page with the loading flag down and
    touches neither the network nor the store, nor the dataset in memory,
    nor what is persisted. *)
Theorem loadInitialData_local_or_welcome readable env w :
  let run := loadInitialData getTime readable env w in
  (localStorage w !! "sessionMode" = Some "local" ->
   traffic (snd run) = traffic w /\
   store (snd run) = store w /\
   (idb_open env = true /\ readable = true ->
    fst run = Returns tt /\
    sessionMode (snd run) = SessionMode.local /\
    interviews (snd run) ≡ₚ storedRecords (store w) /\
    isLoading (snd run) = false) /\
   (~ (idb_open env = true /\ readable = true) ->
    (exists reason, fst run = Throws (Reason reason)) /\
    sessionMode (snd run) = sessionMode w /\
    interviews (snd run) = interviews w /\
    isLoading (snd run) = true)) /\
  ((forall mode, localStorage w !! "sessionMode" = Some mode ->
      mode <> "local" /\
      (mode = "online" -> JS.truthy_opt (localStorage w !! "syncUrl") = false)) ->
   fst run = Returns tt /\
   sessionMode (snd run) = SessionMode.welcome /\
   isLoading (snd run) = false /\
   traffic (snd run) = traffic w /\
   store (snd run) = store w /\
   interviews (snd run) = interviews w /\
   localStorage (snd run) = localStorage w).
Proof.
  split.
  - intros Hmode. simpl. rewrite (loadInitialData_local readable env w Hmode).
    destruct (handleStartLocalSession_run getTime readable env
                (snd (setIsLoading true env w)))
      as (Htraffic & Hstore & _ & _ & _ & Hstarted & Hfailed).
    destruct (handleStartLocalSession getTime readable env _) as [result w1].
    simpl in Htraffic, Hstore, Hstarted, Hfailed.
    split; [|split; [|split]].
    + now destruct result.
    + now destruct result.
    + intros Hok. destruct (Hstarted Hok) as (-> & Hdata & Hlocal & _).
      simpl. rewrite Hdata. repeat split; try assumption.
      unfold sortInterviews. rewrite <- Array_sort_Permutation.
      apply store_getAll_Permutation.
    + intros Hbad.
      destruct (Hfailed Hbad) as ((reason & ->) & Hdata & Hsame & _ & _ & Hloading).
      simpl. eauto 6.
  - intros Hother. unfold loadInitialData, localStorage_getItem. run. simpl.
    destruct (localStorage w !! "sessionMode") as [mode|]; simpl;
      [|repeat split; reflexivity].
    destruct (Hother mode eq_refl) as [Hlocal Honline].
    apply String.eqb_neq in Hlocal.
    destruct (localStorage w !! "syncUrl") as [url|]; simpl; rewrite Hlocal;
      [|repeat split; reflexivity].
    destruct (String.eqb mode "online") eqn:Hmode; simpl;
      [|repeat split; reflexivity].
    apply String.eqb_eq in Hmode. simpl in Honline. rewrite (Honline Hmode).
    repeat split; reflexivity.
Qed.

(** What [handleDisconnect] leaves behind. *)
Lemma handleDisconnect_run env w :
  let run := handleDisconnect env w in
  fst run = Returns tt /\
  interviews (snd run) = [] /\
  sessionMode (snd run) = SessionMode.welcome /\
  syncUrl (snd run) = None /\
  syncStatus (snd run) = SyncStatus.idle /\
  syncError (snd run) = None /\
  etag (snd run) = None /\
  localStorage (snd run) = delete "sessionMode" (delete "syncUrl" (localStorage w)) /\
  store (snd run) = store w /\
  traffic (snd run) = traffic w.
Proof.
  cbv [handleDisconnect setSyncUrl setSyncStatus setSyncError setEtag setInterviews
       setSessionMode localStorage_removeItem set_localStorage modify
       mbind mret Async_bind Async_ret fst snd
       sessionMode interviews isLoading syncUrl syncStatus syncError etag
       localStorage store traffic].
  repeat split; reflexivity.
Qed.

(** X19. Disconnecting forgets the association but not the records:
    [handleDisconnect] empties the dataset in memory, removes the persisted
    mode and URL and leaves the local store alone, so a local session
    started afterwards shows the records the shared session had stored. *)
Theorem handleDisconnect_keeps_local_store env env' w :
  idb_open env' = true ->
  let w1 := snd (handleDisconnect env w) in
  let run := handleStartLocalSession getTime true env' w1 in
  fst (handleDisconnect env w) = Returns tt /\
  interviews w1 = [] /\
  sessionMode w1 = SessionMode.welcome /\
  sharedUrl w1 = None /\
  localStorage w1 !! "sessionMode" = None /\
  localStorage w1 !! "syncUrl" = None /\
  store w1 = store w /\
  traffic w1 = traffic w /\
  fst run = Returns tt /\
  interviews (snd run) ≡ₚ storedRecords (store w).
Proof.
  intros Hopen w1 run.
  destruct (handleDisconnect_run env w)
    as (Hreturns & Hdata & Hmode & _ & _ & _ & _ & Hsaved & Hstore & Htraffic).
  fold w1 in Hdata, Hmode, Hsaved, Hstore, Htraffic.
  destruct (handleStartLocalSession_run getTime true env' w1)
    as (_ & _ & _ & _ & _ & Hstarted & _).
  destruct (Hstarted (conj Hopen eq_refl)) as (Hstarts & Hloaded & _).
  split; [assumption|]. split; [assumption|]. split; [assumption|].
  split; [unfold sharedUrl; now rewrite Hmode|].
  split; [rewrite Hsaved; apply lookup_delete_eq|].
  split; [rewrite Hsaved, lookup_delete_ne by discriminate; apply lookup_delete_eq|].
  split; [assumption|]. split; [assumption|]. split; [assumption|].
  subst run. rewrite Hloaded, Hstore. unfold sortInterviews.
  rewrite <- Array_sort_Permutation. apply store_getAll_Permutation.
Qed.
End StartUp.

Lemma loadInitialData_local_or_welcome_witness :
  let run := loadInitialData Sample.getTime true Sample.offline Sample.welcome in
  fst run = Returns tt /\ sessionMode (snd run) = SessionMode.welcome /\
  traffic (snd run) = [].
Proof.
  destruct (loadInitialData_local_or_welcome Sample.getTime true Sample.offline
              Sample.welcome) as [_ Hwelcome].
  destruct Hwelcome as (Hreturns & Hmode & _ & Htraffic & _).
  - intros mode Hsaved. discriminate Hsaved.
  - split; [exact Hreturns | split; [exact Hmode | exact Htraffic]].
Defined.

(** ** Polling *)

(** What the guard of the timer says about the world. *)
Lemma pollingUrl_fields w url :
  pollingUrl w = Some url ->
  sessionMode w = SessionMode.online /\ syncStatus w = SyncStatus.connected /\
  syncUrl w = Some url /\ JS.truthy url = true.
Proof.
  unfold pollingUrl.
  destruct (sessionMode w), (syncStatus w), (syncUrl w) as [u|]; try discriminate.
  destruct (JS.truthy u) eqn:Htruthy; [|discriminate].
  intros [= <-]. auto.
Qed.

Section Polling.
Variable getTime : string -> option Z.
Variable conditionalGet : string -> option string -> Async response.

Ltac poll_steps Hguard Hget :=
  unfold pollTick, poll, recordEtag, setSyncStatus, setSyncError, setInterviews, setEtag;
  run; simpl; rewrite Hguard; simpl; unfold sentTag in *; try rewrite Hget; simpl.

(** X20. A poll that finds the array unchanged does nothing: when the
    timer runs and the conditional GET is answered with status 304,
    [pollTick] returns and the world is as the request left it. *)
Theorem pollTick_not_modified env w url r w' :
  pollingUrl w = Some url ->
  conditionalGet url (sentTag w) env w = (Returns r, w') ->
  status r = 304 ->
  pollTick getTime conditionalGet env w = (Returns tt, w').
Proof.
  intros Hguard Hget Hstatus. poll_steps Hguard Hget. now rewrite Hstatus.
Qed.

(** [pollTick] when the array did not arrive. *)
Lemma pollTick_fails env w url w' :
  pollingUrl w = Some url ->
  (exists e, conditionalGet url (sentTag w) env w = (Throws e, w')) \/
  (exists r, conditionalGet url (sentTag w) env w = (Returns r, w') /\
             (status r <> 200 /\ status r <> 304 \/
              status r = 200 /\ exists message, body_json r = SyntaxError message)) ->
  let run := pollTick getTime conditionalGet env w in
  fst run = Returns tt /\
  syncStatus (snd run) = SyncStatus.error /\
  syncError (snd run) = Some "Connessione persa. Riprova a sincronizzare manualmente." /\
  interviews (snd run) = interviews w' /\
  store (snd run) = store w'.
Proof.
  intros Hguard [[e Hget] | (r & Hget & Hbad)]; poll_steps Hguard Hget.
  - repeat split.
  - destruct Hbad as [[H200 H304] | (H200 & message & Hbody)].
    + apply Z.eqb_neq in H200, H304. rewrite H200, H304. simpl. repeat split.
    + rewrite H200, Hbody. simpl.
      destruct (JS.truthy_opt (header_ETag r)); simpl; repeat split.
Qed.

(** With a status that is not [connected] there is no timer. *)
Lemma pollTick_idle env w :
  pollingUrl w = None -> pollTick getTime conditionalGet env w = (Returns tt, w).
Proof. intros Hguard. unfold pollTick. run. simpl. now rewrite Hguard. Qed.

Lemma pollingUrl_error w : syncStatus w = SyncStatus.error -> pollingUrl w = None.
Proof. intros Hstatus. unfold pollingUrl. rewrite Hstatus. now destruct (sessionMode w). Qed.

(** X21. A poll that fails stops the polling: when the conditional GET
    throws, or is answered with a status other than 200 and 304, or with
    status 200 and a body that is no JSON, [pollTick] returns (it never
    passes the failure on) with the status [error] and the sync error
    "Connessione persa. Riprova a sincronizzare manualmente."; the dataset
    in memory and the local store are as the request left them, the guard of
    the timer no longer holds, and a further tick does nothing. *)
Theorem pollTick_failure_stops_polling env env' w url w' :
  pollingUrl w = Some url ->
  (exists e, conditionalGet url (sentTag w) env w = (Throws e, w')) \/
  (exists r, conditionalGet url (sentTag w) env w = (Returns r, w') /\
             (status r <> 200 /\ status r <> 304 \/
              status r = 200 /\ exists message, body_json r = SyntaxError message)) ->
  let run := pollTick getTime conditionalGet env w in
  fst run = Returns tt /\
  syncStatus (snd run) = SyncStatus.error /\
  syncError (snd run) = Some "Connessione persa. Riprova a sincronizzare manualmente." /\
  interviews (snd run) = interviews w' /\
  store (snd run) = store w' /\
  pollingUrl (snd run) = None /\
  pollTick getTime conditionalGet env' (snd run) = (Returns tt, snd run).
Proof.
  intros Hguard Hfail.
  destruct (pollTick_fails env w url w' Hguard Hfail)
    as (Hreturns & Hstatus & Herror & Hdata & Hstore).
  repeat split; try assumption.
  - now apply pollingUrl_error.
  - apply pollTick_idle. now apply pollingUrl_error.
Qed.

(** X22. A poll that finds a new array takes it over: when the timer
    runs, the conditional GET is answered with status 200 and a JSON
    payload, and the local overwrite goes through, [pollTick] leaves in
    memory the sorted array of the answer (the empty list when the payload
    is no array) and in the local store exactly those records, records the
    entity tag of the answer if it carries one, and leaves the status as the
    request left it. *)
Theorem pollTick_remote_wins env w url r data w' :
  pollingUrl w = Some url ->
  conditionalGet url (sentTag w) env w = (Returns r, w') ->
  status r = 200 ->
  body_json r = Parsed data ->
  localWriteSucceeds env (sortInterviews getTime (arrayOrEmpty data)) ->
  let run := pollTick getTime conditionalGet env w in
  fst run = Returns tt /\
  interviews (snd run) = sortInterviews getTime (arrayOrEmpty data) /\
  store (snd run) = storeOf (sortInterviews getTime (arrayOrEmpty data)) /\
  etag (snd run) = (if JS.truthy_opt (header_ETag r) then header_ETag r else etag w') /\
  syncStatus (snd run) = syncStatus w' /\
  syncError (snd run) = syncError w'.
Proof.
  intros Hguard Hget H200 Hbody (Hopen & Hclear & Hsucceed).
  poll_steps Hguard Hget. rewrite H200, Hbody. simpl.
  fold (arrayOrEmpty data).
  destruct (JS.truthy_opt (header_ETag r)); simpl;
    split_replaceInterviewsDB; simpl;
    repeat split; try reflexivity; exfalso; intuition congruence.
Qed.

(** X23. [pollTick] never throws, and without a timer (a session that is
    not online, a status that is not [connected], no URL) it leaves the world
    alone, without a call of the network. *)
Theorem pollTick_never_throws env w :
  fst (pollTick getTime conditionalGet env w) = Returns tt /\
  (pollingUrl w = None -> pollTick getTime conditionalGet env w = (Returns tt, w)).
Proof.
  split; [|apply pollTick_idle].
  destruct (pollingUrl w) as [url|] eqn:Hguard; [|now rewrite pollTick_idle].
  destruct (conditionalGet url (sentTag w) env w) as [[r|e] w'] eqn:Hget.
  - poll_steps Hguard Hget.
    destruct (status r =? 200); simpl.
    + destruct (JS.truthy_opt (header_ETag r)); simpl;
        destruct (body_json r); simpl; try reflexivity;
        split_replaceInterviewsDB; reflexivity.
    + destruct (status r =? 304); reflexivity.
  - now poll_steps Hguard Hget.
Qed.

(** X24. A manual sync that goes through starts the polling again: in an
    online session, whatever the sync status was, after a [handleManualSync]
    whose array arrives and whose local overwrite succeeds the guard of the
    timer holds. *)
Theorem handleManualSync_resumes_polling env w url r data :
  sessionMode w = SessionMode.online ->
  syncUrl w = Some url ->
  JS.truthy url = true ->
  net env (fetchAllRequest url) = Answer r ->
  ok r = true ->
  body_json r = Parsed data ->
  localWriteSucceeds env (sortInterviews getTime (arrayOrEmpty data)) ->
  pollingUrl (snd (handleManualSync getTime env w)) = Some url.
Proof.
  intros Hmode Hurl Htruthy Hnet Hok Hbody Hlocal.
  destruct (handleManualSync_answered getTime env w url r data Hurl Htruthy Hnet Hok Hbody)
    as (_ & _ & _ & Hmode' & Hurl' & Hwritten & _).
  destruct (Hwritten Hlocal) as (_ & Hstatus & _).
  unfold pollingUrl. simpl in *. now rewrite Hmode', Hmode, Hstatus, Hurl', Hurl, Htruthy.
Qed.

End Polling.

Lemma pollTick_not_modified_witness :
  pollTick Sample.getTime Sample.conditionalGet (Sample.answering 304) Sample.shared
  = (Returns tt,
     logged (fetchAllRequest Sample.binUrl) (net (Sample.answering 304)
              (fetchAllRequest Sample.binUrl)) Sample.shared).
Proof.
  exact (pollTick_not_modified Sample.getTime Sample.conditionalGet
           (Sample.answering 304) Sample.shared Sample.binUrl _ _
           eq_refl eq_refl eq_refl).
Defined.

Lemma pollTick_failure_stops_polling_witness :
  let run := pollTick Sample.getTime Sample.conditionalGet Sample.offline Sample.shared in
  syncStatus (snd run) = SyncStatus.error /\
  interviews (snd run) = [Sample.first] /\
  pollingUrl (snd run) = None.
Proof.
  destruct (pollTick_failure_stops_polling Sample.getTime Sample.conditionalGet
              Sample.offline Sample.offline Sample.shared Sample.binUrl
              (logged (fetchAllRequest Sample.binUrl)
                 (NetworkFailure "Failed to fetch") Sample.shared)
              eq_refl (or_introl (ex_intro _ (Error "Failed to fetch") eq_refl)))
    as (_ & Hstatus & _ & Hdata & _ & Hguard & _).
  split; [exact Hstatus | split; [exact Hdata | exact Hguard]].
Defined.

Lemma pollTick_remote_wins_witness :
  let run := pollTick Sample.getTime Sample.conditionalGet
               (Sample.serving [Sample.second]) Sample.shared in
  interviews (snd run) = [Sample.second] /\
  store (snd run) = storeOf [Sample.second] /\
  etag (snd run) = Some "v2".
Proof.
  destruct (pollTick_remote_wins Sample.getTime Sample.conditionalGet
              (Sample.serving [Sample.second]) Sample.shared Sample.binUrl
              _ (JArray [Sample.second]) _ eq_refl eq_refl eq_refl eq_refl)
    as (_ & Hdata & Hstore & Htag & _).
  - repeat split; try reflexivity; [compute_done | repeat constructor].
  - split; [exact Hdata | split; [exact Hstore | exact Htag]].
Defined.

Lemma handleManualSync_resumes_polling_witness :
  let failed := snd (pollTick Sample.getTime Sample.conditionalGet
                       Sample.offline Sample.shared) in
  pollingUrl failed = None /\
  pollingUrl (snd (handleManualSync Sample.getTime (Sample.serving [Sample.second]) failed))
  = Some Sample.binUrl.
Proof.
  split; [reflexivity|].
  apply (handleManualSync_resumes_polling Sample.getTime (Sample.serving [Sample.second])
           _ Sample.binUrl
           (Sample.reply 200 (Some "v2") "[...]" (Parsed (JArray [Sample.second])))
           (JArray [Sample.second]));
    try reflexivity.
  repeat split; try reflexivity; [compute_done | repeat constructor].
Defined.

Lemma loadInitialData_falls_back_witness :
  let run := loadInitialData Sample.getTime true Sample.offline Sample.shared in
  fst run = Returns tt /\
  sessionMode (snd run) = SessionMode.local /\
  localStorage (snd run) !! "sessionMode" = Some "local".
Proof.
  destruct (loadInitialData_falls_back Sample.getTime true Sample.offline Sample.shared
              Sample.binUrl eq_refl eq_refl eq_refl
              (or_intror (conj eq_refl I)) eq_refl eq_refl)
    as (Hreturns & Hmode & _ & _ & _ & Hsaved & _).
  split; [exact Hreturns | split; [exact Hmode | exact Hsaved]].
Defined.

Lemma handleDisconnect_keeps_local_store_witness :
  let w1 := snd (handleDisconnect Sample.offline Sample.shared) in
  let run := handleStartLocalSession Sample.getTime true Sample.offline w1 in
  interviews w1 = [] /\ interviews (snd run) ≡ₚ [Sample.first].
Proof.
  destruct (handleDisconnect_keeps_local_store Sample.getTime Sample.offline
              Sample.offline Sample.shared eq_refl)
    as (_ & Hempty & _ & _ & _ & _ & _ & _ & _ & Hback).
  split; [exact Hempty | exact Hback].
Defined.

(** ** The records the form produces *)

Lemma binary_round_signed prec emax s m e :
  signed s (binary_round prec emax s m e).
Proof.
  unfold binary_round.
  destruct (shl_align m e (fexp prec emax (Z.pos (digits2_pos m) + e))) as [mz ez].
  apply binary_round_aux_signed. lia.
Qed.

Lemma add_nonNegative x y :
  nonNegative x -> nonNegative y -> nonNegative (JS.add x y).
Proof.
  intros Hx Hy. apply nonNegative_cases in Hx, Hy. apply nonNegative_cases.
  unfold JS.add.
  destruct x as [sx|sx| |sx mx ex], y as [sy|sy| |sy my ey]; simpl in *;
    try tauto; subst; try reflexivity.
  - now destruct sx, sy.
  - destruct (shl_align mx ex (Z.min ex ey)) as [mx' ex'].
    destruct (shl_align my ey (Z.min ex ey)) as [my' ey']. simpl.
    pose proof (binary_round_signed JS.prec JS.emax false (mx' + my') (Z.min ex ey)) as H.
    destruct (binary_round _ _ _ _ _); simpl in H; tauto.
Qed.
Lemma normalizeCostToWeekly_nonNegative c frequency :
  nonNegative c -> nonNegative (normalizeCostToWeekly c frequency).
Proof.
  intros Hc. destruct frequency; simpl.
  - now apply mul_nonNegative.
  - exact Hc.
  - apply div_nonNegative. now apply mul_nonNegative.
Qed.

Section FormFacts.
Variable parseFloat : string -> JS.number.

(** X25. Whatever the form holds, a record that [handleSubmit] hands over
    has the location, the travel mode and the park-and-ride answer of the
    form, a travel mode that is not "none", the payment type "none" exactly
    when the travel mode is "other", in which case its cost is 0, a weekly
    cost that is a number not below zero, and the [id] and the date the host
    supplied. *)
Theorem handleSubmit_record_invariant form host record :
  handleSubmit parseFloat form host = inr record ->
  form_location form = Some (location record) /\
  previousTravelMode record = form_previousTravelMode form /\
  previousTravelMode record <> TravelMode.NONE /\
  (previousPaymentType record = PaymentType.NONE <->
   previousTravelMode record = TravelMode.ALTRO) /\
  (previousTravelMode record = TravelMode.ALTRO ->
   previousWeeklyCost record = JS.of_Z 0) /\
  nonNegative (previousWeeklyCost record) /\
  usesParkAndRide record = form_usesParkAndRide form /\
  id record = host_idInstant host +:+ host_random host /\
  interviewDateTime record = host_instant host.
Proof.
  unfold handleSubmit.
  destruct (form_location form) as [place|]; [|discriminate].
  set (c := parseFloat (replaceComma (form_cost form))).
  destruct (form_previousTravelMode form); try discriminate.
  - destruct (JS.isNaN c || JS.ltb c (JS.of_Z 0)) eqn:Hcheck; [discriminate|].
    apply orb_false_elim in Hcheck.
    apply nonNegative_validated in Hcheck.
    pose proof (normalizeCostToWeekly_nonNegative c (form_costFrequency form) Hcheck).
    destruct (form_previousPaymentType form); intros [= <-]; simpl;
      repeat split; try assumption; try discriminate.
  - destruct (JS.isNaN c || JS.ltb c (JS.of_Z 0)) eqn:Hcheck; [discriminate|].
    apply orb_false_elim in Hcheck.
    apply nonNegative_validated in Hcheck.
    pose proof (normalizeCostToWeekly_nonNegative c (form_costFrequency form) Hcheck).
    destruct (form_previousPaymentType form); intros [= <-]; simpl;
      repeat split; try assumption; try discriminate.
  - intros [= <-]. simpl. repeat split; try reflexivity; discriminate.
Qed.

(** X26. [handleSubmit] hands over a record exactly when a location is
    chosen, the travel mode is not "none", and either the travel mode is
    "other" or the cost read from the form is a number not below zero and a
    payment type is chosen; otherwise it reports a message and nothing is
    added. *)
Theorem handleSubmit_accepts form host :
  (exists record, handleSubmit parseFloat form host = inr record) <->
  is_Some (form_location form) /\
  form_previousTravelMode form <> TravelMode.NONE /\
  (form_previousTravelMode form = TravelMode.ALTRO \/
   nonNegative (parseFloat (replaceComma (form_cost form))) /\
   form_previousPaymentType form <> PaymentType.NONE).
Proof.
  unfold handleSubmit.
  set (c := parseFloat (replaceComma (form_cost form))).
  pose proof (nonNegative_validated c) as Hvalid.
  destruct (form_location form) as [place|]; cycle 1.
  { split; [intros [record Hrecord] | intros [[place Hplace] _]]; discriminate. }
  assert (Hplace : is_Some (Some place)) by eauto.
  destruct (form_previousTravelMode form);
    destruct (JS.isNaN c) eqn:Hnan; destruct (JS.ltb c (JS.of_Z 0)) eqn:Hlt;
    destruct (form_previousPaymentType form); simpl;
    (split; [intros [record Hrecord] | intros (_ & Hmode & Hcost)]);
    try discriminate Hrecord; try (eexists; reflexivity); try congruence;
    try (exfalso; destruct Hcost as [Hother | [Hc Hp]]; [discriminate Hother|];
         apply Hvalid in Hc; destruct Hc; congruence);
    (split; [assumption|]); (split; [discriminate|]);
    try (left; reflexivity);
    right; (split; [apply Hvalid; split; reflexivity | discriminate]).
Qed.

End FormFacts.

Lemma handleSubmit_record_invariant_witness :
  exists record,
    handleSubmit Sample.parseFloat Sample.filledForm Sample.host = inr record /\
    previousPaymentType record <> PaymentType.NONE /\
    nonNegative (previousWeeklyCost record).
Proof.
  eexists. split; [reflexivity|].
  destruct (handleSubmit_record_invariant Sample.parseFloat Sample.filledForm
              Sample.host _ eq_refl)
    as (_ & _ & _ & Hpayment & _ & Hcost & _).
  split; [|exact Hcost].
  intros Hnone. apply Hpayment in Hnone. discriminate.
Defined.

(** ** Submitting the form *)

Section SubmitFacts.
Variable getTime : string -> option Z.
Variable parseFloat : string -> JS.number.

(** X27. A submission whose mirror fails: when the form is valid, the
    session is shared, the PATCH gets no answer or one whose status is no
    success, and the local store takes the record, the page ends with the
    form as the user filled it, no success message, the saving flag down and
    the message of the failed request as its error, while the record is in
    the local store and in the dataset in memory. *)
Theorem handleSubmitEvent_remote_failure page host env w record url :
  handleSubmit parseFloat (page_form page) host = inr record ->
  sharedUrl w = Some url ->
  failed (net env (appendRequest url record)) ->
  idb_open env = true ->
  idb_add env record = true ->
  store w !! id record = None ->
  let run := handleSubmitEvent getTime parseFloat page host env w in
  page_form (fst run) = page_form page /\
  page_error (fst run)
  = match net env (appendRequest url record) with
    | NetworkFailure message => message
    | Answer r => "Sincronizzazione fallita. (HTTP " +:+ pretty (status r) +:+ ")"
    end /\
  page_success (fst run) = EmptyString /\
  page_isSaving (fst run) = false /\
  store (snd run) !! id record = Some record /\
  record ∈ interviews (snd run).
Proof.
  intros Hsubmit Hshared Hfailed Hopen Hadd Hfree.
  assert (Hin : record ∈ sortInterviews getTime (interviews w ++ [record])).
  { unfold sortInterviews. rewrite <- Array_sort_Permutation.
    apply elem_of_app. right. constructor. }
  unfold handleSubmitEvent. rewrite Hsubmit.
  unfold addInterview, addInterviewDB, recordEtag, store_add,
    setInterviews, setSyncStatus, setSyncError, setEtag.
  run. simpl.
  replace (sharedUrl _) with (Some url) by (rewrite <- Hshared; reflexivity).
  simpl. fold (appendRequest url record).
  destruct (net env (appendRequest url record)) as [message|r]; simpl in *.
  - rewrite Hopen. simpl. rewrite Hfree, Hadd. simpl.
    repeat split; try assumption. apply lookup_insert_eq.
  - rewrite Hfailed. simpl. rewrite Hopen. simpl. rewrite Hfree, Hadd. simpl.
    repeat split; try assumption. apply lookup_insert_eq.
Qed.

(** A submission that is saved resets the form. *)
Lemma handleSubmitEvent_saved page host env w record w' :
  handleSubmit parseFloat (page_form page) host = inr record ->
  addInterview getTime record env w = (Returns tt, w') ->
  handleSubmitEvent getTime parseFloat page host env w
  = ({| page_form := emptyForm; page_error := EmptyString;
        page_success := "Intervista aggiunta con successo!";
        page_isSaving := false |}, w').
Proof.
  intros Hsubmit Hsaved. unfold handleSubmitEvent. now rewrite Hsubmit, Hsaved.
Qed.

End SubmitFacts.

Lemma handleSubmitEvent_remote_failure_witness :
  let page := {| page_form := Sample.filledForm; page_error := EmptyString;
                 page_success := EmptyString; page_isSaving := false |} in
  let run := handleSubmitEvent Sample.getTime Sample.parseFloat page Sample.host
               Sample.serverError Sample.shared in
  page_form (fst run) = Sample.filledForm /\
  page_error (fst run) = "Sincronizzazione fallita. (HTTP 500)".
Proof.
  destruct (handleSubmitEvent_remote_failure Sample.getTime Sample.parseFloat
              {| page_form := Sample.filledForm; page_error := EmptyString;
                 page_success := EmptyString; page_isSaving := false |}
              Sample.host Sample.serverError Sample.shared _ Sample.binUrl
              eq_refl eq_refl eq_refl eq_refl eq_refl eq_refl)
    as (Hform & Herror & _).
  split; [exact Hform | exact Herror].
Defined.

(** ** The welcome page *)

Section WelcomeFacts.
Variable getTime : string -> option Z.

(** X28. The handlers of the welcome page never pass an error on.
    [handleJoin] with an empty URL reports "L'URL non può essere vuoto."
    and leaves the world alone; with a URL that is not one of the service it
    reports "URL non valido." without a request being sent; [handleCreate]
    after a request that failed reports the message of the failure, and the
    session is not online. *)
Theorem WelcomePage_handlers page env w :
  (JS.truthy (joinUrl page) = false ->
   handleJoin getTime page env w
   = (setJoinError (Some "L'URL non può essere vuoto.") page, w)) /\
  (JS.truthy (joinUrl page) = true ->
   JS.startsWith (joinUrl page) "https://kvdb.io/" = false ->
   let run := handleJoin getTime page env w in
   joinError (fst run) = Some "URL non valido." /\
   traffic (snd run) = traffic w /\
   sessionMode (snd run) = sessionMode w /\
   interviews (snd run) = interviews w /\
   store (snd run) = store w) /\
  (failed (net env (overwriteRequest KVDB_NEW_BIN_URL (interviews w))) ->
   let run := handleCreate page env w in
   (exists message,
      createError (fst run) = Some message /\ syncError (snd run) = Some message) /\
   sessionMode (snd run) = sessionMode w /\
   syncUrl (snd run) = syncUrl w /\
   localStorage (snd run) = localStorage w).
Proof.
  split; [|split].
  - intros Hempty. unfold handleJoin. now rewrite Hempty.
  - intros Hfilled Hbad. unfold handleJoin.
    rewrite Hfilled, (handleConnectSession_rejects_url getTime env w (joinUrl page) true Hbad).
    simpl. repeat split.
  - intros Hfailed.
    destruct (handleCreateSession_cases env w) as (_ & _ & _ & _ & _ & Hcase).
    destruct (Hcase Hfailed)
      as ((message & Hthrows & Herror) & _ & Hsaved & Hmode & Hurl).
    unfold handleCreate.
    destruct (handleCreateSession env w) as [result w']. simpl in *. subst result.
    simpl. eauto 6.
Qed.

End WelcomeFacts.

(** ** The summary *)

Lemma List_filter_all {A} (f : A -> bool) l :
  (forall x, f x = true) -> List.filter f l = l.
Proof.
  intros Hall. induction l as [|x l IH]; simpl; [reflexivity|].
  now rewrite Hall, IH.
Qed.

Lemma List_filter_StronglySorted {A} (R : A -> A -> Prop) (f : A -> bool) l :
  StronglySorted R l -> StronglySorted R (List.filter f l).
Proof.
  induction 1 as [|x l Hl IH Hx]; simpl; [constructor|].
  destruct (f x); [|assumption].
  constructor; [assumption|].
  apply List.Forall_forall. intros y Hy.
  apply List.filter_In in Hy as [Hy _].
  rewrite List.Forall_forall in Hx. now apply Hx.
Qed.

Lemma sumCosts_app l1 l2 :
  sumCosts (l1 ++ l2)
  = fold_left (fun sum i => JS.add sum (previousWeeklyCost i)) l2 (sumCosts l1).
Proof. unfold sumCosts. apply fold_left_app. Qed.

Lemma fold_costs_nonNegative l : forall start,
  nonNegative start ->
  Forall (fun i => nonNegative (previousWeeklyCost i)) l ->
  nonNegative (fold_left (fun sum i => JS.add sum (previousWeeklyCost i)) l start).
Proof.
  induction l as [|i l IH]; intros start Hstart Hall; simpl; [assumption|].
  apply Forall_cons_1 in Hall as [Hi Hall].
  apply IH; [|assumption]. now apply add_nonNegative.
Qed.

Lemma sumCosts_nonNegative l :
  Forall (fun i => nonNegative (previousWeeklyCost i)) l -> nonNegative (sumCosts l).
Proof. intros Hall. now apply fold_costs_nonNegative. Qed.

(** Every record is at one of the two locations. *)
Lemma atLocation_partition l :
  (length (List.filter (atLocation DARMIPARK) l)
   + length (List.filter (atLocation PALAPARK) l) = length l)%nat.
Proof.
  induction l as [|i l IH]; simpl; [reflexivity|].
  assert (Hplace : atLocation DARMIPARK i = true /\ atLocation PALAPARK i = false \/
                   atLocation DARMIPARK i = false /\ atLocation PALAPARK i = true)
    by (unfold atLocation; destruct (location i); auto).
  destruct Hplace as [[-> ->] | [-> ->]]; simpl; lia.
Qed.

Section SummaryFacts.
Variable getTime : string -> option Z.
Variable dayStart : string -> option Z.
Variable dayEnd : string -> option Z.

(** X29. The filter by date of the summary: with both bounds empty it
    keeps every record; it keeps records in their order, so a dataset sorted
    by date stays sorted; a record it keeps whose date parses lies on or
    after the start of the first day and on or before the end of the last
    day, for the bounds that are given and parse; and a record whose date
    does not parse is always kept. *)
Theorem filteredInterviews_facts D startDate endDate :
  let kept := filteredInterviews getTime dayStart dayEnd D startDate endDate in
  (JS.truthy startDate = false -> JS.truthy endDate = false -> kept = D) /\
  (StronglySorted (newerOrEqual getTime) D ->
   StronglySorted (newerOrEqual getTime) kept) /\
  (forall x t, In x kept -> getTime (interviewDateTime x) = Some t ->
     In x D /\
     (forall s, JS.truthy startDate = true -> dayStart startDate = Some s -> s <= t) /\
     (forall e, JS.truthy endDate = true -> dayEnd endDate = Some e -> t <= e)) /\
  (forall x, In x D -> getTime (interviewDateTime x) = None -> In x kept).
Proof.
  unfold filteredInterviews. split; [|split; [|split]].
  - intros Hstart Hend. apply List_filter_all. intros x. now rewrite Hstart, Hend.
  - apply List_filter_StronglySorted.
  - intros x t Hx Hdate. apply List.filter_In in Hx as [Hx Hkept].
    rewrite Hdate in Hkept. split; [assumption|]. split.
    + intros s Hstart Hs. rewrite Hstart, Hs in Hkept. simpl in Hkept.
      destruct (t <? s) eqn:Hlt; [discriminate|]. now apply Z.ltb_ge in Hlt.
    + intros e Hend He. rewrite Hend, He in Hkept.
      destruct (e <? t) eqn:Hlt; [|now apply Z.ltb_ge in Hlt].
      exfalso. simpl in Hkept. rewrite Hlt in Hkept.
      destruct (JS.truthy startDate); simpl in Hkept; [|discriminate].
      destruct (dayStart startDate) as [s|]; [destruct (t <? s)|]; discriminate.
  - intros x Hx Hdate. apply List.filter_In. split; [assumption|].
    rewrite Hdate. simpl.
    destruct (JS.truthy startDate), (JS.truthy endDate); simpl; try reflexivity;
      now destruct (dayEnd endDate).
Qed.

End SummaryFacts.

Lemma filteredInterviews_facts_witness :
  ~ In Sample.first
      (filteredInterviews Sample.getTime Sample.dayStart Sample.dayEnd
         [Sample.second; Sample.first] "2024-01-15" EmptyString).
Proof.
  intros Hkept.
  destruct (filteredInterviews_facts Sample.getTime Sample.dayStart Sample.dayEnd
              [Sample.second; Sample.first] "2024-01-15" EmptyString)
    as (_ & _ & Hbounds & _).
  destruct (Hbounds Sample.first 1704103200000 Hkept eq_refl) as (_ & Hstart & _).
  apply (Hstart 1705276800000 eq_refl eq_refl). reflexivity.
Defined.

(** X30. The sums of the summary: a record of someone who does not use
    park and ride, or whose previous travel mode is "other" or "none", adds
    one to the count and nothing to any loss, wherever it stands in the
    list; when the costs of the records are numbers not below zero, so are
    the three losses; and every record is counted at one of the two
    locations: the counts of the locations add up to the combined count. *)
Theorem calculateMetrics_facts (l1 l2 : list InterviewData) (r : InterviewData) :
  (usesParkAndRide r = false
   \/ previousTravelMode r = TravelMode.ALTRO
   \/ previousTravelMode r = TravelMode.NONE ->
   calculateMetrics (l1 ++ r :: l2)
   = {| totalParkingLoss := totalParkingLoss (calculateMetrics (l1 ++ l2));
        totalTplLoss := totalTplLoss (calculateMetrics (l1 ++ l2));
        totalWeeklyLoss := totalWeeklyLoss (calculateMetrics (l1 ++ l2));
        totalInterviews := S (totalInterviews (calculateMetrics (l1 ++ l2))) |}) /\
  (Forall (fun i => nonNegative (previousWeeklyCost i)) l1 ->
   nonNegative (totalParkingLoss (calculateMetrics l1)) /\
   nonNegative (totalTplLoss (calculateMetrics l1)) /\
   nonNegative (totalWeeklyLoss (calculateMetrics l1))) /\
  (totalInterviews (summary_Darmipark (summary l1))
   + totalInterviews (summary_Palapark (summary l1))
   = totalInterviews (summary_combined (summary l1)))%nat.
Proof.
  split; [|split].
  - intros Hout. unfold calculateMetrics.
    assert (Hcar : lostTo TravelMode.CAR r = false)
      by (unfold lostTo; destruct Hout as [-> | [-> | ->]];
          now destruct (previousTravelMode r)).
    assert (Htpl : lostTo TravelMode.TPL r = false)
      by (unfold lostTo; destruct Hout as [-> | [-> | ->]];
          now destruct (previousTravelMode r)).
    rewrite !List.filter_app. simpl. rewrite Hcar, Htpl.
    rewrite !length_app. simpl. now rewrite Nat.add_succ_r.
  - intros Hcosts. unfold calculateMetrics. simpl.
    assert (Hsum : forall f, nonNegative (sumCosts (List.filter f l1))).
    { intros f. apply sumCosts_nonNegative.
      apply List.Forall_forall. intros i Hi. apply List.filter_In in Hi as [Hi _].
      rewrite List.Forall_forall in Hcosts. now apply Hcosts. }
    repeat split; try apply Hsum. apply add_nonNegative; apply Hsum.
  - apply atLocation_partition.
Qed.

Lemma calculateMetrics_facts_witness :
  totalInterviews (calculateMetrics [Sample.first; Sample.second]) = 2%nat /\
  totalParkingLoss (calculateMetrics [Sample.first; Sample.second])
  = totalParkingLoss (calculateMetrics [Sample.first]) /\
  nonNegative (totalWeeklyLoss (calculateMetrics [Sample.first])).
Proof.
  destruct (calculateMetrics_facts [Sample.first] [] Sample.second)
    as (Hskip & Hsign & _).
  pose proof (Hskip (or_introl eq_refl)) as Hsame.
  split; [exact (f_equal totalInterviews Hsame)|].
  split; [exact (f_equal totalParkingLoss Hsame)|].
  apply Hsign. repeat constructor.
Defined.

(** ** The local store, operation by operation *)

Lemma addInterviewDB_cases r env w :
  (idb_open env = true /\ store w !! id r = None /\ idb_add env r = true /\
   addInterviewDB r env w = (Returns tt, set_store (<[id r := r]> (store w)) w)) \/
  ((idb_open env = false \/ is_Some (store w !! id r) \/ idb_add env r = false) /\
   exists reason, addInterviewDB r env w = (Throws (Reason reason), w)).
Proof.
  unfold addInterviewDB, store_add. run. simpl.
  destruct (idb_open env); simpl; [|right; split; [tauto|eauto]].
  destruct (store w !! id r) eqn:Hkey; simpl; [right; split; eauto|].
  destruct (idb_add env r); simpl; [left; tauto|right; split; [tauto|eauto]].
Qed.

Lemma clearAllInterviewsDB_cases env w :
  (idb_open env = true /\ idb_clear env = true /\
   clearAllInterviewsDB env w = (Returns tt, set_store ∅ w)) \/
  ((idb_open env = false \/ idb_clear env = false) /\
   exists reason, clearAllInterviewsDB env w = (Throws (Reason reason), w)).
Proof.
  unfold clearAllInterviewsDB. run. simpl.
  destruct (idb_open env); simpl; [|right; split; [tauto|eauto]].
  destruct (idb_clear env); simpl; [left; tauto|right; split; [tauto|eauto]].
Qed.

Lemma store_set_store st w : store (set_store st w) = st.
Proof. reflexivity. Qed.

Lemma store_getAll_empty : store_getAll ∅ = [].
Proof. unfold store_getAll. now rewrite map_to_list_empty. Qed.

(** X1. [addInterviewDB] resolves exactly when the database opens, no
    record is stored under the [id] and the engine accepts the write; the
    record can then be looked up under its [id] and every other key holds
    what it held.  Otherwise the promise is rejected and the world is what
    it was: a record already stored under the [id] is never overwritten. *)
Theorem addInterviewDB_outcome r env w :
  let run := addInterviewDB r env w in
  (fst run = Returns tt <->
   idb_open env = true /\ store w !! id r = None /\ idb_add env r = true) /\
  (fst run = Returns tt ->
   store (snd run) !! id r = Some r /\
   forall key, key <> id r -> store (snd run) !! key = store w !! key) /\
  (fst run <> Returns tt ->
   (exists reason, fst run = Throws (Reason reason)) /\ snd run = w).
Proof.
  destruct (addInterviewDB_cases r env w)
    as [(Hopen & Hfree & Hadd & ->) | (Hbad & reason & ->)]; simpl.
  - split; [tauto|]. split; [|congruence]. intros _. split.
    + apply lookup_insert_eq.
    + intros key Hkey. now apply lookup_insert_ne.
  - split; [|split; [discriminate|eauto]].
    split; [discriminate|]. intros (Hopen & Hfree & Hadd). exfalso.
    destruct Hbad as [Hclosed | [[old Hold] | Hrefused]]; congruence.
Qed.

(** X2. What was written is what [getAllInterviewsDB] reads back, when
    the database opens and the read succeeds: after a [replaceInterviewsDB]
    that resolved it returns the records of the list, each once; after an
    [addInterviewDB] that resolved it returns the new record and the records
    the store held; and the read leaves the world as it was. *)
Theorem getAllInterviewsDB_reads_back env env' w :
  idb_open env' = true ->
  (forall records,
     let written := replaceInterviewsDB records env w in
     fst written = Returns tt ->
     exists stored,
       getAllInterviewsDB true env' (snd written) = (Returns stored, snd written) /\
       stored ≡ₚ records) /\
  (forall r,
     let written := addInterviewDB r env w in
     fst written = Returns tt ->
     exists stored,
       getAllInterviewsDB true env' (snd written) = (Returns stored, snd written) /\
       stored ≡ₚ r :: storedRecords (store w)).
Proof.
  intros Hopen. split.
  - intros records.
    destruct (replaceInterviewsDB_cases records env w)
      as [(_ & _ & [Hnodup _] & ->) | (_ & reason & ->)]; simpl; [|discriminate].
    intros _. rewrite getAllInterviewsDB_run, Hopen. eexists. split; [reflexivity|].
    rewrite store_set_store, store_getAll_Permutation.
    now apply storedRecords_storeOf.
  - intros r.
    destruct (addInterviewDB_cases r env w)
      as [(_ & Hfree & _ & ->) | (_ & reason & ->)]; simpl; [|discriminate].
    intros _. rewrite getAllInterviewsDB_run, Hopen. eexists. split; [reflexivity|].
    rewrite store_set_store, store_getAll_Permutation. unfold storedRecords.
    now rewrite map_to_list_insert.
Qed.

Lemma getAllInterviewsDB_reads_back_witness :
  exists stored,
    fst (getAllInterviewsDB true Sample.offline
           (snd (replaceInterviewsDB [Sample.second; Sample.first]
                   Sample.offline Sample.shared)))
    = Returns stored /\
    stored ≡ₚ [Sample.second; Sample.first].
Proof.
  destruct (getAllInterviewsDB_reads_back Sample.offline Sample.offline Sample.shared
              eq_refl) as [Hreplaced _].
  destruct (Hreplaced [Sample.second; Sample.first] eq_refl) as (stored & Hread & Hsame).
  exists stored. split; [exact (f_equal fst Hread) | exact Hsame].
Defined.

(** X3. [clearAllInterviewsDB] resolves exactly when the database opens
    and the clear succeeds; the store is then empty and a read returns the
    empty list.  Otherwise the promise is rejected and the world is what it
    was.  [replaceInterviewsDB] of the empty list is the same operation,
    with the same reasons of rejection. *)
Theorem clearAllInterviewsDB_outcome env w :
  let run := clearAllInterviewsDB env w in
  (fst run = Returns tt <-> idb_open env = true /\ idb_clear env = true) /\
  (fst run = Returns tt ->
   store (snd run) = ∅ /\
   forall env', idb_open env' = true ->
     getAllInterviewsDB true env' (snd run) = (Returns [], snd run)) /\
  (fst run <> Returns tt ->
   (exists reason, fst run = Throws (Reason reason)) /\ snd run = w) /\
  replaceInterviewsDB [] env w = run.
Proof.
  split; [|split; [|split]]; cycle 3.
  { unfold replaceInterviewsDB, clearAllInterviewsDB. run. simpl.
    destruct (idb_open env); simpl; [|reflexivity].
    now destruct (idb_clear env). }
  all: destruct (clearAllInterviewsDB_cases env w)
    as [(Hopen & Hclear & ->) | (Hbad & reason & ->)]; simpl.
  - tauto.
  - split; [discriminate|]. intros [Hopen Hclear]. destruct Hbad; congruence.
  - intros _. split; [reflexivity|]. intros env' Hopen'.
    now rewrite getAllInterviewsDB_run, Hopen', store_set_store, store_getAll_empty.
  - discriminate.
  - congruence.
  - eauto.
Qed.

(** ** Sample runs *)

Lemma addInterviewDB_outcome_witness :
  fst (addInterviewDB Sample.second Sample.offline Sample.shared) = Returns tt /\
  store (snd (addInterviewDB Sample.second Sample.offline Sample.shared)) !! "a"
  = Some Sample.first /\
  snd (addInterviewDB Sample.firstAgain Sample.offline Sample.shared) = Sample.shared.
Proof.
  destruct (addInterviewDB_outcome Sample.second Sample.offline Sample.shared)
    as (Hresolves & Hstored & _).
  destruct (addInterviewDB_outcome Sample.firstAgain Sample.offline Sample.shared)
    as (Hrejects & _ & Hrejected).
  pose proof (proj2 Hresolves (conj eq_refl (conj eq_refl eq_refl))) as Hreturns.
  split; [exact Hreturns|]. split.
  - destruct (Hstored Hreturns) as [_ Hothers].
    rewrite (Hothers "a"); [reflexivity | discriminate].
  - apply Hrejected. intros Hreturns'. apply Hrejects in Hreturns'.
    destruct Hreturns' as (_ & Hfree & _). discriminate Hfree.
Defined.

Lemma clearAllInterviewsDB_outcome_witness :
  store (snd (clearAllInterviewsDB Sample.offline Sample.shared)) = ∅ /\
  replaceInterviewsDB [] Sample.offline Sample.shared
  = clearAllInterviewsDB Sample.offline Sample.shared.
Proof.
  destruct (clearAllInterviewsDB_outcome Sample.offline Sample.shared)
    as (Hresolves & Hcleared & _ & Hsame).
  split; [|exact Hsame].
  apply Hcleared. apply Hresolves. split; reflexivity.
Defined.

Lemma handleCreateSession_outcome_witness :
  let env := Sample.device
               (Answer (Sample.reply 200 None "https://kvdb.io/Bucket1/k"
                          (SyntaxError "Unexpected token h in JSON"))) true in
  sessionMode (snd (handleCreateSession env Sample.welcome)) = SessionMode.online /\
  syncUrl (snd (handleCreateSession env Sample.welcome)) = Some "https://kvdb.io/Bucket1/k".
Proof.
  intros env.
  destruct (handleCreateSession_outcome env Sample.welcome)
    as (_ & _ & _ & _ & Hcreated & _).
  destruct (Hcreated _ eq_refl eq_refl) as (_ & Hurl & _ & Hmode & _).
  split; [exact Hmode | exact Hurl].
Defined.

Lemma handleSubmit_accepts_witness :
  exists record, handleSubmit Sample.parseFloat Sample.filledForm Sample.host = inr record.
Proof.
  apply (handleSubmit_accepts Sample.parseFloat Sample.filledForm Sample.host).
  split; [eexists; reflexivity|]. split; [discriminate|].
  right. split; [reflexivity | discriminate].
Defined.

Lemma WelcomePage_handlers_witness :
  let page := {| joinUrl := "http://example.org/bin"; joinError := None;
                 createError := None |} in
  joinError (fst (handleJoin Sample.getTime page Sample.offline Sample.welcome))
  = Some "URL non valido.".
Proof.
  intros page.
  destruct (WelcomePage_handlers Sample.getTime page Sample.offline Sample.welcome)
    as (_ & Hrejected & _).
  destruct (Hrejected eq_refl eq_refl) as [Herror _]. exact Herror.
Defined.

Lemma handleManualSync_never_throws_witness :
  fst (handleManualSync Sample.getTime Sample.offline Sample.shared)
  <> Throws (Error "Failed to fetch") /\
  handleManualSync Sample.getTime Sample.offline Sample.welcome
  = (Returns tt, Sample.welcome).
Proof.
  split.
  - exact (proj1 (handleManualSync_never_throws Sample.getTime Sample.offline Sample.shared)
             (Error "Failed to fetch")).
  - exact (proj2 (handleManualSync_never_throws Sample.getTime Sample.offline Sample.welcome)
             eq_refl).
Defined.

Lemma pollTick_never_throws_witness :
  fst (pollTick Sample.getTime Sample.conditionalGet Sample.serverError Sample.shared)
  = Returns tt /\
  pollTick Sample.getTime Sample.conditionalGet Sample.offline Sample.welcome
  = (Returns tt, Sample.welcome).
Proof.
  split.
  - exact (proj1 (pollTick_never_throws Sample.getTime Sample.conditionalGet
                    Sample.serverError Sample.shared)).
  - exact (proj2 (pollTick_never_throws Sample.getTime Sample.conditionalGet
                    Sample.offline Sample.welcome) eq_refl).
Defined.
